(** * postfinance/vault: the KV path adapter and the Kubernetes token helper

    A shallow embedding of the three revisions of package [kv]
    (src/kv/kv.go and the two files of src/unnamed/part_002) and of
    package [k8s] (src/unnamed/part_000), with the properties of the
    specification stated over it.

    Go strings are byte strings ([string]); Go's [int] is [Z]; a Go map
    that may be nil is an [option (gmap _ _)]; a Go [(value, error)] result
    is a pair whose second component is [None] for a nil error; a run-time
    panic is an explicit outcome. *)

From Stdlib Require Import ZArith Ascii String List Lia.
From stdpp Require Import base option list gmap strings.

Local Open Scope string_scope.
Local Open Scope Z_scope.
Set Warnings "-register-all".
#[local] Arguments String.append !s1 s2 : simpl nomatch.

(** ** The part of the Go runtime and standard library the packages call *)

Module Go.

(** What stops a goroutine: an index out of range, a failed type
    assertion, a nil pointer dereference. *)
Inductive panic : Type :=
| IndexOutOfRange (index len : nat)
| TypeAssertion (wanted : string)
| NilDereference.

Inductive exec (A : Type) : Type :=
| Done (a : A)
| Panic (p : panic).
Arguments Done {A} a.
Arguments Panic {A} p.

Definition bind {A B : Type} (m : exec A) (k : A -> exec B) : exec B :=
  match m with
  | Done a => k a
  | Panic p => Panic p
  end.

Definition panics {A : Type} (m : exec A) : Prop :=
  match m with
  | Done _ => False
  | Panic _ => True
  end.

(** [pp[i]] on a slice. *)
Definition index {A : Type} (pp : list A) (i : nat) : exec A :=
  match pp !! i with
  | Some x => Done x
  | None => Panic (IndexOutOfRange i (length pp))
  end.

(** *** package strings *)

(** [strings.HasPrefix(s, prefix)]. *)
Fixpoint HasPrefix (s prefix : string) {struct prefix} : bool :=
  match prefix, s with
  | EmptyString, _ => true
  | String c prefix', String d s' =>
      if Ascii.eqb c d then HasPrefix s' prefix' else false
  | String _ _, EmptyString => false
  end.

(** [strings.TrimPrefix(s, prefix)]: [s] without the leading [prefix], or
    [s] itself when it does not start with it. *)
Fixpoint dropBytes (n : nat) (s : string) : string :=
  match n, s with
  | O, _ => s
  | S n', String _ s' => dropBytes n' s'
  | S _, EmptyString => EmptyString
  end.

Definition TrimPrefix (s prefix : string) : string :=
  if HasPrefix s prefix then dropBytes (String.length prefix) s else s.

(** [strings.HasSuffix(s, suffix)]:
    [len(s) >= len(suffix) && s[len(s)-len(suffix):] == suffix]. *)
Definition HasSuffix (s suffix : string) : bool :=
  (String.length suffix <=? String.length s)%nat &&
  String.eqb (dropBytes (String.length s - String.length suffix) s) suffix.

(** [strings.ContainsRune(s, r)] for a one-byte rune. *)
Fixpoint ContainsRune (s : string) (r : ascii) : bool :=
  match s with
  | EmptyString => false
  | String c s' => if Ascii.eqb c r then true else ContainsRune s' r
  end.

(** [strings.TrimLeft(s, cutset)] for a cutset of one-byte runes: the
    leading bytes that belong to the cutset are removed. *)
Fixpoint TrimLeft (s cutset : string) : string :=
  match s with
  | EmptyString => EmptyString
  | String c s' => if ContainsRune cutset c then TrimLeft s' cutset else s
  end.

(** [strings.Split(s, sep)] for the one-byte separator every call site
    passes: the pieces between the occurrences of [sep], always at least
    one piece. [splitFrom sep s] is the first piece of [s] and the
    pieces after it. *)
Fixpoint splitFrom (sep : ascii) (s : string) : string * list string :=
  match s with
  | EmptyString => (EmptyString, [])
  | String c s' =>
      let '(piece, more) := splitFrom sep s' in
      if Ascii.eqb c sep then (EmptyString, piece :: more)
      else (String c piece, more)
  end.

Definition Split (s : string) (sep : ascii) : list string :=
  let '(piece, more) := splitFrom sep s in piece :: more.

(** [strings.Join(elems, sep)]. *)
Fixpoint Join (elems : list string) (sep : string) : string :=
  match elems with
  | [] => EmptyString
  | [e] => e
  | e :: rest => e +:+ sep +:+ Join rest sep
  end.

(** *** package path *)

(** One path element met by [path.Clean], the cleaned elements so far kept
    innermost first: empty and [.] elements vanish, [..] removes the
    element before it, is kept in front of a relative path that has
    nothing left to remove, and vanishes at the root. *)
Definition cleanElem (rooted : bool) (out : list string) (e : string)
  : list string :=
  if String.eqb e "" || String.eqb e "." then out
  else if String.eqb e ".." then
    match out with
    | top :: below =>
        if String.eqb top ".." then ".." :: out else below
    | [] => if rooted then [] else [".."]
    end
  else e :: out.

(** [path.Clean(p)]. *)
Definition Clean (p : string) : string :=
  if String.eqb p "" then "."
  else
    let rooted := HasPrefix p "/" in
    let out := rev (fold_left (cleanElem rooted) (Split p "/"%char) []) in
    let s := (if rooted then "/" else "") +:+ Join out "/" in
    if String.eqb s "" then "." else s.

(** [path.Join(elem...)] as of Go 1.12: the elements from the first
    non-empty one on, joined with slashes and cleaned; the empty string
    when there is none. *)
Fixpoint pathJoin (elem : list string) : string :=
  match elem with
  | [] => ""
  | e :: rest =>
      if String.eqb e "" then pathJoin rest else Clean (Join elem "/")
  end.

(** *** errors *)

(** An argument of a format string, kept with its verb's meaning. *)
Inductive fmtArg : Type :=
| FStr (s : string)
| FInt (n : Z)
| FQuoted (s : string).

Inductive numErrKind : Type := ErrSyntax | ErrRange.

(** A Go [error] value: [fmt.Errorf], [errors.Wrap] and [errors.Wrapf] of
    github.com/pkg/errors (the wrapped error is the cause),
    [*strconv.NumError], and the errors of the collaborators (file system,
    HTTP client), which the packages never inspect. *)
Inductive error : Type :=
| Errorf (format : string) (args : list fmtArg)
| Wrapf (cause : error) (format : string) (args : list fmtArg)
| NumError (func num : string) (kind : numErrKind)
| External (what : string).

(** [errors.Cause]. *)
Fixpoint Cause (e : error) : error :=
  match e with
  | Wrapf cause _ _ => Cause cause
  | _ => e
  end.

(** *** package strconv *)

Definition byteVal (c : ascii) : Z := Z.of_N (N_of_ascii c).

Definition maxUint64 : Z := 2 ^ 64 - 1.

(** The loop of [strconv.ParseUint(s, 10, 64)]. *)
Fixpoint parseUintLoop (s : string) (n : Z) : Z * option numErrKind :=
  match s with
  | EmptyString => (n, None)
  | String c s' =>
      let b := byteVal c in
      if (48 <=? b) && (b <=? 57) then
        let d := b - 48 in
        if maxUint64 / 10 + 1 <=? n then (maxUint64, Some ErrRange)
        else
          let n1 := n * 10 + d in
          if maxUint64 <? n1 then (maxUint64, Some ErrRange)
          else parseUintLoop s' n1
      else (0, Some ErrSyntax)
  end.

Definition ParseUint (s : string) : Z * option numErrKind :=
  match s with
  | EmptyString => (0, Some ErrSyntax)
  | _ => parseUintLoop s 0
  end.

(** [strconv.ParseInt(s, 10, 0)] where [int] has 64 bits. *)
Definition ParseInt (s : string) : Z * option numErrKind :=
  match s with
  | EmptyString => (0, Some ErrSyntax)
  | String c s' =>
      let neg := Ascii.eqb c "-" in
      let digits := if Ascii.eqb c "+" || neg then s' else s in
      let '(un, err) := ParseUint digits in
      match err with
      | Some ErrSyntax => (0, Some ErrSyntax)
      | _ =>
          let cutoff := 2 ^ 63 in
          if negb neg && (cutoff <=? un) then (cutoff - 1, Some ErrRange)
          else if neg && (cutoff <? un) then (- cutoff, Some ErrRange)
          else (if neg then - un else un, None)
      end
  end.

(** The loop of the fast path of [strconv.Atoi]: [ch -= '0'] wraps around
    in a byte. *)
Fixpoint atoiLoop (s : string) (n : Z) : option Z :=
  match s with
  | EmptyString => Some n
  | String c s' =>
      let ch := (byteVal c - 48) mod 256 in
      if 9 <? ch then None else atoiLoop s' (n * 10 + ch)
  end.

(** [strconv.Atoi(s)]: strings of 1 to 18 bytes take the fast path, the
    others go through [ParseInt]; every error is a [NumError] of function
    [Atoi] on the whole input. *)
Definition Atoi (s : string) : Z * option error :=
  let sLen := String.length s in
  if (0 <? sLen)%nat && (sLen <? 19)%nat then
    match s with
    | EmptyString => (0, Some (NumError "Atoi" s ErrSyntax))
    | String c s' =>
        let signed := Ascii.eqb c "-" || Ascii.eqb c "+" in
        let digits := if signed then s' else s in
        if signed && (String.length digits <? 1)%nat
        then (0, Some (NumError "Atoi" s ErrSyntax))
        else
          match atoiLoop digits 0 with
          | None => (0, Some (NumError "Atoi" s ErrSyntax))
          | Some n => (if Ascii.eqb c "-" then - n else n, None)
          end
    end
  else
    let '(i64, err) := ParseInt s in
    (i64, option_map (NumError "Atoi" s) err).

End Go.

Import Go.

(** ** The data the secrets service exchanges *)

(** A Go [interface{}] value of a decoded response body. [VMap None] is a
    nil [map[string]interface{}] held in a non-nil interface. *)
Inductive value : Type :=
| VNil
| VString (s : string)
| VInt (n : Z)
| VBool (b : bool)
| VList (l : list value)
| VMap (m : option (gmap string value)).

(** [map[string]interface{}], [None] being the nil map. *)
Abbreviation fields := (option (gmap string value)).

Record SecretAuth : Type := { ClientToken : string }.

(** [api.Secret], as far as the packages read it. *)
Record Secret : Type := {
  Data : fields;
  Warnings : list string;
  Auth : option SecretAuth
}.

(** [api.MountOutput]; a missing option reads as the empty string. *)
Record MountOutput : Type := {
  MountType : string;
  Options : gmap string string
}.

(** [m[k]] on a map of strings: the zero value when [k] is absent. *)
Definition option_of (opts : gmap string string) (k : string) : string :=
  default "" (opts !! k).

(** [s.Data[k]]: the nil interface when [k] is absent or the map is nil. *)
Definition mapIndex (m : fields) (k : string) : value :=
  match m with
  | Some g => default VNil (g !! k)
  | None => VNil
  end.

(** [v.(map[string]interface{})], [v.([]interface{})] and [v.(string)]:
    the one-result forms, which panic on any other dynamic type. *)
Definition assertMap (v : value) : exec fields :=
  match v with
  | VMap m => Done m
  | _ => Panic (TypeAssertion "map[string]interface {}")
  end.

Definition assertList (v : value) : exec (list value) :=
  match v with
  | VList l => Done l
  | _ => Panic (TypeAssertion "[]interface {}")
  end.

Definition assertString (v : value) : exec string :=
  match v with
  | VString s => Done s
  | _ => Panic (TypeAssertion "string")
  end.

(** The loop [for _, v := range l { keys = append(keys, v.(string)) }]. *)
Fixpoint appendKeys (keys : list string) (l : list value) : exec (list string) :=
  match l with
  | [] => Done keys
  | v :: l' => bind (assertString v) (fun s => appendKeys (keys ++ [s]) l')
  end.

(** The collaborator: the logical and system back ends of the service
    client over a world [W]. A write may change the world; [ListMounts]
    gives the mount table as the entries in the order the [range] loop of
    the caller visits them (Go leaves that order unspecified). *)
Record Service (W : Type) : Type := {
  LogicalRead : W -> string -> option Secret * option error;
  LogicalWrite : W -> string -> fields -> W * (option Secret * option error);
  LogicalList : W -> string -> option Secret * option error;
  ListMounts : W -> list (string * MountOutput) * option error
}.
Arguments LogicalRead {W} _ _ _.
Arguments LogicalWrite {W} _ _ _ _.
Arguments LogicalList {W} _ _ _.
Arguments ListMounts {W} _ _.

Definition ReadPrefix : string := "data".
Definition WritePrefix : string := ReadPrefix.
Definition ListPrefix : string := "metadata".

(** The value a function hands back next to a non-nil error or for a
    missing secret: the nil map, the nil slice. *)
Definition nilFields : fields := None.
Definition nilKeys : option (list string) := None.

(** ** Package kv, src/kv/kv.go *)

Module KvOld.

Record Client : Type := { Version : Z }.

(** [fixPath]: [pp[:1]], then the prefix, then [pp[1:]], joined as a path.
    The inner [append] builds a fresh slice before the outer one writes,
    so the elements are the ones read from [pp]. *)
Definition fixPath (p prefix : string) : string :=
  let pp := Split p "/"%char in
  pathJoin (take 1 pp ++ ([prefix] ++ drop 1 pp)).

(** The [range] loop of [getVersion] over the mount table. *)
Fixpoint getVersionLoop (mounts : list (string * MountOutput)) (p : string)
  : Z * option error :=
  match mounts with
  | [] => (0, Some (Errorf "failed to get mount for path: %s" [FStr p]))
  | (k, m) :: rest =>
      if negb (HasPrefix p k) then getVersionLoop rest p
      else if negb (String.eqb (MountType m) "kv") then
        (0, Some (Errorf "matching mount %s for path %s is not of type kv"
                    [FStr k; FStr p]))
      else
        let '(version, err) := Atoi (option_of (Options m) "version") in
        match err with
        | Some e => (version, Some e)
        | None =>
            if (version =? 1) || (version =? 2) then (version, None)
            else (version, Some (Errorf "unknown version: %d" [FInt version]))
        end
  end.

Section WithService.
Context {W : Type} (svc : Service W).

Definition getVersion (w : W) (p : string) : Z * option error :=
  let '(mounts, err) := ListMounts svc w in
  match err with
  | Some e => (0, Some e)
  | None => getVersionLoop mounts p
  end.

Definition New (w : W) (p : string) : option Client * option error :=
  let '(version, err) := getVersion w p in
  match err with
  | Some e => (None, Some e)
  | None => (Some {| Version := version |}, None)
  end.

Definition Read (c : Client) (w : W) (p : string)
  : exec (fields * option error) :=
  let origPath := p in
  let p := if Version c =? 2 then fixPath p ReadPrefix else p in
  let '(s, err) := LogicalRead svc w p in
  match err, s with
  | Some e, _ => Done (nilFields, Some e)
  | None, None =>
      Done (nilFields, Some (Errorf "failed to read path %s" [FStr origPath]))
  | None, Some s =>
      if Version c =? 2 then
        bind (assertMap (mapIndex (Data s) "data")) (fun m => Done (m, None))
      else Done (Data s, None)
  end.

Definition Write (c : Client) (w : W) (p : string) (data : fields)
  : exec (W * option error) :=
  let p := if Version c =? 2 then fixPath p WritePrefix else p in
  let data :=
    if Version c =? 2 then Some {[ "data" := VMap data ]} else data in
  let '(w', (_, err)) := LogicalWrite svc w p data in
  Done (w', err).

Definition List (c : Client) (w : W) (p : string)
  : exec (option (list string) * option error) :=
  let origPath := p in
  let p := if Version c =? 2 then fixPath p ListPrefix else p in
  let '(s, err) := LogicalList svc w p in
  match err, s with
  | Some e, _ => Done (nilKeys, Some e)
  | None, None =>
      Done (nilKeys, Some (Errorf "failed to list path %s" [FStr origPath]))
  | None, Some s =>
      bind (assertList (mapIndex (Data s) "keys")) (fun l =>
      bind (appendKeys [] l) (fun keys => Done (Some keys, None)))
  end.

End WithService.
End KvOld.

(** ** Package kv, first file of src/unnamed/part_002: the prefix goes
    after the first path segment *)

Module KvFirst.

Record Client : Type := { Version : Z }.

(** [FixPath(p, prefix)]; [pp[1]] panics on a path without a slash. *)
Definition FixPath (p prefix : string) : exec string :=
  let pp := Split p "/"%char in
  bind (index pp 1) (fun pp1 =>
  if String.eqb pp1 prefix then Done p
  else Done (pathJoin (take 1 pp ++ ([prefix] ++ drop 1 pp)))).

Fixpoint getVersionLoop (mounts : list (string * MountOutput)) (p : string)
  : Z * option error :=
  match mounts with
  | [] => (0, Some (Errorf "failed to get mount for path: %s" [FStr p]))
  | (k, m) :: rest =>
      if negb (HasPrefix p k) then getVersionLoop rest p
      else if String.eqb (MountType m) "kv" then
        Atoi (option_of (Options m) "version")
      else if String.eqb (MountType m) "generic" then (1, None)
      else
        (0, Some (Errorf "matching mount %s for path %s is not of type kv"
                    [FStr k; FStr p]))
  end.

Section WithService.
Context {W : Type} (svc : Service W).

Definition getVersion (w : W) (p : string) : Z * option error :=
  let '(mounts, err) := ListMounts svc w in
  match err with
  | Some e => (0, Some e)
  | None => getVersionLoop mounts p
  end.

Definition New (w : W) (p : string) : option Client * option error :=
  if negb (ContainsRune p "/") then
    (None, Some (Errorf "path %s must contain at least one '/'" [FStr p]))
  else
    let '(version, err) := getVersion w p in
    match err with
    | Some e => (None, Some e)
    | None => (Some {| Version := version |}, None)
    end.

Definition Read (c : Client) (w : W) (p : string)
  : exec (fields * option error) :=
  bind (if Version c =? 2 then FixPath p ReadPrefix else Done p) (fun p =>
  let '(s, err) := LogicalRead svc w p in
  match err, s with
  | Some e, _ => Done (nilFields, Some e)
  | None, None => Done (nilFields, None)
  | None, Some s =>
      match Data s with
      | None => Done (nilFields, None)
      | Some _ =>
          if Version c =? 2 then
            bind (assertMap (mapIndex (Data s) "data"))
                 (fun m => Done (m, None))
          else Done (Data s, None)
      end
  end).

Definition Write (c : Client) (w : W) (p : string) (data : fields)
  : exec (W * option error) :=
  bind (if Version c =? 2 then FixPath p WritePrefix else Done p) (fun p =>
  let data :=
    if Version c =? 2 then Some {[ "data" := VMap data ]} else data in
  let '(w', (_, err)) := LogicalWrite svc w p data in
  Done (w', err)).

Definition List (c : Client) (w : W) (p : string)
  : exec (option (list string) * option error) :=
  bind (if Version c =? 2 then FixPath p ListPrefix else Done p) (fun p =>
  let '(s, err) := LogicalList svc w p in
  match err, s with
  | Some e, _ => Done (nilKeys, Some e)
  | None, None => Done (nilKeys, None)
  | None, Some s =>
      match Data s with
      | None => Done (nilKeys, None)
      | Some _ =>
          bind (assertList (mapIndex (Data s) "keys")) (fun l =>
          bind (appendKeys [] l) (fun keys => Done (Some keys, None)))
      end
  end).

End WithService.
End KvFirst.

(** ** Package kv, second file of src/unnamed/part_002: the prefix goes
    after the mount the client was built for *)

Module KvMount.

Record Client : Type := { Version : Z; Mount : string }.

(** The mount with its closing slash, as [FixPath] completes it. *)
Definition withSlash (mount : string) : string :=
  if negb (HasSuffix mount "/") then mount +:+ "/" else mount.

(** [FixPath(path, mount, prefix)]; the last line is
    [fmt.Sprintf("%s%s/%s", mount, prefix, secretPath)]. *)
Definition FixPath (path mount prefix : string) : exec string :=
  let mount := withSlash mount in
  let secretPath := TrimPrefix path mount in
  let pp := Split secretPath "/"%char in
  bind (index pp 0) (fun pp0 =>
  if String.eqb pp0 prefix then Done path
  else Done (mount +:+ prefix +:+ "/" +:+ secretPath)).

Fixpoint getVersionAndMountLoop (mounts : list (string * MountOutput))
  (p : string) : Z * string * option error :=
  match mounts with
  | [] => (0, "", Some (Errorf "failed to get mount for path: %s" [FStr p]))
  | (k, m) :: rest =>
      if negb (HasPrefix p k) then getVersionAndMountLoop rest p
      else if String.eqb (MountType m) "kv" then
        let '(version, err) := Atoi (option_of (Options m) "version") in
        match err with
        | Some e => (0, "", Some e)
        | None => (version, k, None)
        end
      else if String.eqb (MountType m) "generic" then (1, k, None)
      else
        (0, "", Some (Errorf "matching mount %s for path %s is not of type kv"
                        [FStr k; FStr p]))
  end.

Section WithService.
Context {W : Type} (svc : Service W).

Definition getVersionAndMount (w : W) (p : string)
  : Z * string * option error :=
  let '(mounts, err) := ListMounts svc w in
  match err with
  | Some e => (0, "", Some e)
  | None => getVersionAndMountLoop mounts p
  end.

Definition New (w : W) (p : string) : option Client * option error :=
  if HasPrefix p "/" then
    (None, Some (Errorf "path %s must not start with '/'" [FStr p]))
  else if negb (ContainsRune p "/") then
    (None, Some (Errorf "path %s must contain at least one '/'" [FStr p]))
  else
    let '(version, mount, err) := getVersionAndMount w p in
    match err with
    | Some e => (None, Some e)
    | None => (Some {| Version := version; Mount := mount |}, None)
    end.

Definition Read (c : Client) (w : W) (p : string)
  : exec (fields * option error) :=
  bind (if Version c =? 2 then FixPath p (Mount c) ReadPrefix else Done p)
  (fun p =>
  let '(s, err) := LogicalRead svc w p in
  match err, s with
  | Some e, _ => Done (nilFields, Some e)
  | None, None => Done (nilFields, None)
  | None, Some s =>
      match Data s with
      | None => Done (nilFields, None)
      | Some _ =>
          if Version c =? 2 then
            bind (assertMap (mapIndex (Data s) "data"))
                 (fun m => Done (m, None))
          else Done (Data s, None)
      end
  end).

Definition Write (c : Client) (w : W) (p : string) (data : fields)
  : exec (W * option error) :=
  bind (if Version c =? 2 then FixPath p (Mount c) WritePrefix else Done p)
  (fun p =>
  let data :=
    if Version c =? 2 then Some {[ "data" := VMap data ]} else data in
  let '(w', (_, err)) := LogicalWrite svc w p data in
  Done (w', err)).

Definition List (c : Client) (w : W) (p : string)
  : exec (option (list string) * option error) :=
  bind (if Version c =? 2 then FixPath p (Mount c) ListPrefix else Done p)
  (fun p =>
  let '(s, err) := LogicalList svc w p in
  match err, s with
  | Some e, _ => Done (nilKeys, Some e)
  | None, None => Done (nilKeys, None)
  | None, Some s =>
      match Data s with
      | None => Done (nilKeys, None)
      | Some _ =>
          bind (assertList (mapIndex (Data s) "keys")) (fun l =>
          bind (appendKeys [] l) (fun keys => Done (Some keys, None)))
      end
  end).

End WithService.
End KvMount.

(** ** Package k8s, src/unnamed/part_000 *)

Module K8s.

(** The [*api.Client] handle: its one mutable field. *)
Record ApiClient : Type := { token : string }.

Record Vault : Type := {
  Role : string;
  TokenPath : string;
  ReAuth : bool;
  TTL : Z;
  AuthMountPath : string;
  ServiceAccountTokenPath : string;
  AllowFail : bool;
  client : ApiClient
}.

(** What the package reaches outside itself: [ioutil.ReadFile], the
    writer [vaultLogical(v.client)] that submits the login,
    [v.client.Auth().Token().RenewSelf] and [bytes.TrimSpace]. *)
Record Host : Type := {
  ReadFile : string -> string * option error;
  LoginWrite : ApiClient -> string -> fields -> option Secret * option error;
  RenewSelf : ApiClient -> Z -> option Secret * option error;
  TrimSpace : string -> string
}.

(** [FixAuthMountPath]. *)
Definition FixAuthMountPath (p : string) : exec string :=
  let pp := Split (TrimLeft p "/") "/"%char in
  bind (index pp 0) (fun pp0 =>
  if String.eqb pp0 "auth" then Done (pathJoin pp)
  else Done (pathJoin ("auth" :: pp))).

(** The login payload: [data := make(map[string]interface{})], then
    [data["role"] = v.Role] and [data["jwt"] = jwt]. *)
Definition loginData (role jwt : string) : gmap string value :=
  <[ "jwt" := VString jwt ]> (<[ "role" := VString role ]> ∅).

Section WithHost.
Context (host : Host).

(** [Authenticate]; [s.Warnings] and [s.Auth.ClientToken] dereference
    pointers the writer may have left nil. *)
Definition Authenticate (v : Vault) : exec (string * option error) :=
  let empty := "" in
  let '(content, err) := ReadFile host (ServiceAccountTokenPath v) in
  match err with
  | Some e => Done (empty, Some (Wrapf e "failed to read jwt token" []))
  | None =>
      let jwt := TrimSpace host content in
      let data := loginData (Role v) jwt in
      bind (FixAuthMountPath (AuthMountPath v)) (fun mountPath =>
      let '(s, err) :=
        LoginWrite host (client v) (pathJoin [mountPath; "login"]) (Some data) in
      match err, s with
      | Some e, _ =>
          Done (empty,
                Some (Wrapf e
                  "login failed with role from environment variable VAULT_ROLE: %q"
                  [FQuoted (Role v)]))
      | None, None => Panic NilDereference
      | None, Some s =>
          if (0 <? length (Warnings s))%nat then
            Done (empty,
                  Some (Errorf "login failed with: %s"
                          [FStr (Join (Warnings s) " - ")]))
          else
            match Auth s with
            | None => Panic NilDereference
            | Some a => Done (ClientToken a, None)
            end
      end)
  end.

(** [LoadToken]. *)
Definition LoadToken (v : Vault) : string * option error :=
  let '(content, err) := ReadFile host (TokenPath v) in
  match err with
  | Some e => ("", Some (Wrapf e "failed to load token" []))
  | None =>
      if (String.length content =? 0)%nat
      then ("", Some (Errorf "found empty token" []))
      else (content, None)
  end.

(** [v.client.SetToken(token)]. *)
Definition SetToken (v : Vault) (tok : string) : Vault :=
  {| Role := Role v; TokenPath := TokenPath v; ReAuth := ReAuth v;
     TTL := TTL v; AuthMountPath := AuthMountPath v;
     ServiceAccountTokenPath := ServiceAccountTokenPath v;
     AllowFail := AllowFail v; client := {| token := tok |} |}.

Definition UseToken (v : Vault) (tok : string) : Vault := SetToken v tok.

(** [GetToken]: the result and the receiver after the call. *)
Definition GetToken (v : Vault) : exec (Vault * (string * option error)) :=
  let empty := "" in
  let '(tok, err) := LoadToken v in
  match err with
  | Some e =>
      if ReAuth v then bind (Authenticate v) (fun r => Done (v, r))
      else
        Done (v, (empty,
                  Some (Wrapf e "failed to load token form: %s"
                          [FStr (TokenPath v)])))
  | None =>
      let v := SetToken v tok in
      let '(_, err) := RenewSelf host (client v) (TTL v) in
      match err with
      | Some e =>
          if ReAuth v then bind (Authenticate v) (fun r => Done (v, r))
          else Done (v, (empty, Some (Wrapf e "failed to renew token" [])))
      | None => Done (v, (tok, None))
      end
  end.

End WithHost.
End K8s.

(** ** The JSON transport of the service client

    A body reaches the service encoded as JSON and comes back decoded. A
    nil map held in an interface is encoded as [null] and decoded as the
    nil interface; maps and lists are carried element by element; strings,
    booleans and numbers are carried as they are, a number being, as
    everywhere in [value], one in the form the decoder gives it. The body
    itself is decoded into the field [Data], a map: [null] gives the nil
    map there. *)

Fixpoint wire (v : value) : value :=
  match v with
  | VMap None => VNil
  | VMap (Some g) => VMap (Some (wire <$> g))
  | VList l => VList (wire <$> l)
  | _ => v
  end.

Definition wireBody (d : fields) : fields :=
  match d with
  | Some g => Some (wire <$> g)
  | None => None
  end.

(** ** The service as a key-value store

    The collaborator the round-trip property is stated against: a write
    keeps the body as the transport carries it, a read returns the body
    kept at the path and no secret where there is none; a list returns the
    names directly below the path. *)

Module Store.

Record World : Type := {
  secrets : gmap string fields;
  mountTable : list (string * MountOutput)
}.

Definition bodyOf (d : fields) : Secret :=
  {| Data := d; Warnings := []; Auth := None |}.

(** The name a stored path contributes to the listing of [dir]: its next
    segment, with a closing slash when the path goes deeper. *)
Definition childName (dir key : string) : option string :=
  if HasPrefix key dir then
    match Split (TrimPrefix key dir) "/"%char with
    | name :: _ :: _ => Some (name +:+ "/")
    | name :: [] => if String.eqb name "" then None else Some name
    | [] => None
    end
  else None.

Definition children (w : World) (p : string) : list string :=
  let dir := if HasSuffix p "/" then p else p +:+ "/" in
  let names : gset string :=
    list_to_set (omap (childName dir) (elements (dom (secrets w)))) in
  elements names.

Definition service : Service World := {|
  LogicalRead w p :=
    match secrets w !! p with
    | Some d => (Some (bodyOf d), None)
    | None => (None, None)
    end;
  LogicalWrite w p d :=
    ({| secrets := <[ p := wireBody d ]> (secrets w);
        mountTable := mountTable w |},
     (None, None));
  LogicalList w p :=
    match children w p with
    | [] => (None, None)
    | names =>
        (Some (bodyOf (Some {[ "keys" := VList (VString <$> names) ]})), None)
    end;
  ListMounts w := (mountTable w, None)
|}.

End Store.

(** ** Vocabulary and test data of the properties *)

(** A segment: a string without a slash. *)
Definition noSlash (s : string) : Prop := ContainsRune s "/" = false.

(** [n] slashes. *)
Fixpoint slashes (n : nat) : string :=
  match n with
  | O => ""
  | S n' => String "/" (slashes n')
  end.

(** A path element [path.Clean] keeps or drops as it is: no slash inside,
    and neither [.] nor [..]; a plain segment is moreover not empty. *)
Definition okElem (e : string) : Prop := noSlash e /\ e <> "." /\ e <> "..".
Definition plainSeg (e : string) : Prop := okElem e /\ e <> "".

Definition nonEmpty (elems : list string) : list string :=
  List.filter (fun e => negb (String.eqb e "")) elems.

(** The collaborator found nothing: no error and either no secret or a
    secret whose data body is nil. *)
Definition noSecret (r : option Secret * option error) : Prop :=
  r = (None, None) \/ exists s, r = (Some s, None) /\ Data s = None.

(** A store with one secret whose body is nil, and nothing else. *)
Definition nilBodyWorld : Store.World :=
  {| Store.secrets := {[ "secret/data/test" := None ]};
     Store.mountTable := [] |}.

(** The body has what [Read] on revision 2 looks for: a map under
    [data]; and what [List] looks for: a list of strings under [keys]. *)
Definition wellFormedData (v : value) : Prop := exists m, v = VMap m.
Definition wellFormedKeys (v : value) : Prop :=
  exists names, v = VList (VString <$> names).

(** A collaborator that answers every read and list with the same
    secret. *)
Definition fixedService (s : Secret) : Service unit := {|
  LogicalRead _ _ := (Some s, None);
  LogicalWrite w _ _ := (w, (None, None));
  LogicalList _ _ := (Some s, None);
  ListMounts _ := ([], None)
|}.

(** A body with neither a map under [data] nor a list under [keys], and
    one with both. *)
Definition malformedSecret : Secret :=
  {| Data := Some {[ "keys" := VInt 3 ]}; Warnings := []; Auth := None |}.
Definition wellFormedSecret : Secret :=
  {| Data := Some (<[ "keys" := VList [VString "first"; VString "second"] ]>
                     {[ "data" := VMap (Some {[ "k" := VString "v" ]}) ]});
     Warnings := []; Auth := None |}.


Definition penguin : fields :=
  Some {[ "Penguin" := VString "Oswald Chesterfield Cobblepot" ]}.

(** The call [Authenticate] makes to the login endpoint, once the identity
    token [content] has been read. *)
Definition loginCall (host : K8s.Host) (v : K8s.Vault) (content mp : string)
  : option Secret * option error :=
  K8s.LoginWrite host (K8s.client v) (pathJoin [mp; "login"])
    (Some (K8s.loginData (K8s.Role v) (K8s.TrimSpace host content))).

(** A host made of a map from file names to contents, a fixed answer of
    the login endpoint and a fixed outcome of the self-renewal. *)
Definition hostWith (files : gmap string string)
  (login : option Secret * option error) (renew : option error) : K8s.Host := {|
  K8s.ReadFile name :=
    match files !! name with
    | Some content => (content, None)
    | None => ("", Some (External "open: no such file or directory"))
    end;
  K8s.LoginWrite _ _ _ := login;
  K8s.RenewSelf _ _ := (None, renew);
  K8s.TrimSpace content := content
|}.

Definition rootToken : string := "90b03685-e17b-7e5e-13a0-e14e45baeb2f".

Definition testVault (reAuth : bool) : K8s.Vault := {|
  K8s.Role := "demo";
  K8s.TokenPath := "/tmp/vault-token";
  K8s.ReAuth := reAuth;
  K8s.TTL := 3600;
  K8s.AuthMountPath := "auth/kubernetes";
  K8s.ServiceAccountTokenPath := "/tmp/sa-token";
  K8s.AllowFail := false;
  K8s.client := {| K8s.token := "" |}
|}.

(** The responses of the two fake writers of the package's tests, the
    warning one given a client token as well. *)
Definition warningResponse : Secret :=
  {| Data := None; Warnings := ["warning"];
     Auth := Some {| ClientToken := rootToken |} |}.
Definition tokenResponse : Secret :=
  {| Data := None; Warnings := [];
     Auth := Some {| ClientToken := rootToken |} |}.

(** Hosts for the five runs of [GetToken]: no token file; no token file
    and a login that succeeds; a token that cannot be renewed; the same
    with a login that succeeds; a token that renews. *)
Definition hostNoToken : K8s.Host :=
  hostWith ∅ (Some tokenResponse, None) None.
Definition hostLoginOnly : K8s.Host :=
  hostWith {[ "/tmp/sa-token" := "jwt" ]} (Some tokenResponse, None) None.
Definition hostStale : K8s.Host :=
  hostWith {[ "/tmp/vault-token" := "stale" ]} (None, None)
           (Some (External "permission denied")).
Definition hostStaleLogin : K8s.Host :=
  hostWith (<[ "/tmp/sa-token" := "jwt" ]> {[ "/tmp/vault-token" := "stale" ]})
           (Some tokenResponse, None) (Some (External "permission denied")).
Definition hostFresh : K8s.Host :=
  hostWith {[ "/tmp/vault-token" := "fresh" ]} (None, None) None.

(** Every mount of the table whose prefix matches [p] is of type [ty],
    and there is one. *)
Definition matchingAre (ty : string) (mounts : list (string * MountOutput))
  (p : string) : Prop :=
  (exists k m, (k, m) ∈ mounts /\ HasPrefix p k = true)
  /\ (forall k m, (k, m) ∈ mounts -> HasPrefix p k = true -> MountType m = ty).

(** A mount table with the default mounts of a development server and a
    legacy engine at [secret/]. *)
Definition genericWorld : Store.World :=
  {| Store.secrets := ∅;
     Store.mountTable :=
       [("cubbyhole/", {| MountType := "cubbyhole"; Options := ∅ |});
        ("secret/", {| MountType := "generic"; Options := ∅ |});
        ("sys/", {| MountType := "system"; Options := ∅ |})] |}.

(** A decimal numeral: an optional sign, then at least one digit and only
    digits. *)
Definition isDigit (c : ascii) : bool :=
  (48 <=? byteVal c) && (byteVal c <=? 57).

Fixpoint allDigits (s : string) : bool :=
  match s with
  | EmptyString => true
  | String c s' => isDigit c && allDigits s'
  end.

Definition numeric (s : string) : bool :=
  match s with
  | EmptyString => false
  | String c s' =>
      if Ascii.eqb c "-" || Ascii.eqb c "+"
      then negb (String.eqb s' "") && allDigits s'
      else allDigits s
  end.

(** The declared version is not usable: not a decimal numeral (the empty
    string of a missing option included), or a number other than 1 and 2. *)
Definition badVersion (s : string) : Prop :=
  numeric s = false \/ (fst (Atoi s) <> 1 /\ fst (Atoi s) <> 2).

(** A mount table that declares revision 3 for the engine at [secret/]. *)
Definition version3World : Store.World :=
  {| Store.secrets := ∅;
     Store.mountTable :=
       [("secret/", {| MountType := "kv";
                       Options := {[ "version" := "3" ]} |})] |}.

(** ** Package k8s, the rest of src/unnamed/part_000: the token file and
    the construction from the environment *)

Module K8sSetup.

(** [strconv.ParseBool]. *)
Definition ParseBool (str : string) : bool * option error :=
  if existsb (String.eqb str) ["1"; "t"; "T"; "true"; "TRUE"; "True"]
  then (true, None)
  else if existsb (String.eqb str) ["0"; "f"; "F"; "false"; "FALSE"; "False"]
  then (false, None)
  else (false, Some (NumError "ParseBool" str ErrSyntax)).

(** The file system under [ioutil.ReadFile] and [ioutil.WriteFile], over a
    state [F]; the last argument of a write is the permission. *)
Record Files (F : Type) : Type := {
  fileRead : F -> string -> string * option error;
  fileWrite : F -> string -> string -> Z -> F * option error
}.
Arguments fileRead {F} _ _ _.
Arguments fileWrite {F} _ _ _ _ _.

(** [StoreToken]: the permission is [0644]. *)
Definition StoreToken {F : Type} (files : Files F) (v : K8s.Vault) (fs : F)
  (tok : string) : F * option error :=
  let '(fs', err) := fileWrite files fs (K8s.TokenPath v) tok 420 in
  match err with
  | Some e => (fs', Some (Wrapf e "failed to store token" []))
  | None => (fs', None)
  end.

(** The host whose [ioutil.ReadFile] reads the file system in state [fs];
    the other collaborators are those of [base]. *)
Definition hostOn {F : Type} (files : Files F) (fs : F) (base : K8s.Host)
  : K8s.Host := {|
  K8s.ReadFile := fileRead files fs;
  K8s.LoginWrite := K8s.LoginWrite base;
  K8s.RenewSelf := K8s.RenewSelf base;
  K8s.TrimSpace := K8s.TrimSpace base
|}.

(** What [NewFromEnvironment] reads of the process: [os.Getenv] (the
    empty string for an unset variable), [time.ParseDuration] with the
    duration in nanoseconds, the conversion [int(d.Seconds())], which goes
    through floating point, and the two steps that build the API client,
    [vaultConfig.ReadEnvironment()] and [api.NewClient(vaultConfig)]. *)
Record Process : Type := {
  Getenv : string -> string;
  ParseDuration : string -> Z * option error;
  Seconds : Z -> Z;
  ReadEnvironment : option error;
  NewClient : K8s.ApiClient * option error
}.

Definition AuthMountPath : string := "auth/kubernetes".
Definition ServiceAccountTokenPath : string :=
  "/var/run/secrets/kubernetes.io/serviceaccount/token".

Definition validBools : string :=
  "1, t, T, TRUE, true, True, 0, f, F, FALSE, false, False are valid values for ALLOW_FAIL".

(** [NewFromEnvironment]. Both boolean variables are reported with the
    message that names [ALLOW_FAIL], as in the source. *)
Definition NewFromEnvironment (ps : Process)
  : exec (option K8s.Vault * option error) :=
  let role := Getenv ps "VAULT_ROLE" in
  let tokenPath := Getenv ps "VAULT_TOKEN_PATH" in
  if String.eqb tokenPath "" then
    Done (None, Some (Errorf "missing VAULT_TOKEN_PATH" []))
  else
    let '(reAuth, err) :=
      let s := Getenv ps "VAULT_REAUTH" in
      if negb (String.eqb s "") then ParseBool s else (false, None) in
    match err with
    | Some e => Done (None, Some (Wrapf e validBools []))
    | None =>
        let s := Getenv ps "VAULT_TTL" in
        let '(d, err) :=
          if negb (String.eqb s "") then
            let '(d, err) := ParseDuration ps s in (Some d, err)
          else (None, None) in
        match err with
        | Some e =>
            Done (None,
                  Some (Wrapf e "%s is not a valid duration for VAULT_TTL"
                          [FStr s]))
        | None =>
            let ttl := match d with Some d => Seconds ps d | None => 0 end in
            bind (K8s.FixAuthMountPath AuthMountPath) (fun authMountPath =>
            bind (let p := Getenv ps "VAULT_AUTH_MOUNT_PATH" in
                  if negb (String.eqb p "") then K8s.FixAuthMountPath p
                  else Done authMountPath) (fun authMountPath =>
            let saPath :=
              let s := Getenv ps "SERVICE_ACCOUNT_TOKEN_PATH" in
              if String.eqb s "" then ServiceAccountTokenPath else s in
            let '(allowFail, err) :=
              let s := Getenv ps "ALLOW_FAIL" in
              if negb (String.eqb s "") then ParseBool s else (false, None) in
            match err with
            | Some e => Done (None, Some (Wrapf e validBools []))
            | None =>
                match ReadEnvironment ps with
                | Some e =>
                    Done (None,
                          Some (Wrapf e "failed to read environment for vault" []))
                | None =>
                    let '(c, err) := NewClient ps in
                    match err with
                    | Some e =>
                        Done (None,
                              Some (Wrapf e "failed to create vault client" []))
                    | None =>
                        Done (Some {| K8s.Role := role;
                                      K8s.TokenPath := tokenPath;
                                      K8s.ReAuth := reAuth;
                                      K8s.TTL := ttl;
                                      K8s.AuthMountPath := authMountPath;
                                      K8s.ServiceAccountTokenPath := saPath;
                                      K8s.AllowFail := allowFail;
                                      K8s.client := c |}, None)
                    end
                end
            end))
        end
    end.

End K8sSetup.

(** ** Vocabulary and test data of the further properties *)

(** The first entry of the mount table, in the order of the loop, whose
    prefix matches the path. *)
Fixpoint firstMatch (mounts : list (string * MountOutput)) (p : string)
  : option (string * MountOutput) :=
  match mounts with
  | [] => None
  | (k, m) :: rest =>
      if HasPrefix p k then Some (k, m) else firstMatch rest p
  end.

(** No prefix of the mount table matches the path. *)
Definition noMatch (mounts : list (string * MountOutput)) (p : string) : Prop :=
  forall k m, (k, m) ∈ mounts -> HasPrefix p k = false.

(** All entries of the mount table whose prefix matches the path are the
    same entry. *)
Definition oneMatch (mounts : list (string * MountOutput)) (p : string) : Prop :=
  forall k1 m1 k2 m2,
    (k1, m1) ∈ mounts -> (k2, m2) ∈ mounts ->
    HasPrefix p k1 = true -> HasPrefix p k2 = true ->
    (k1, m1) = (k2, m2).

(** A file system in memory: every write succeeds. *)
Definition memFiles : K8sSetup.Files (gmap string string) := {|
  K8sSetup.fileRead fs name :=
    match fs !! name with
    | Some content => (content, None)
    | None => ("", Some (External "open: no such file or directory"))
    end;
  K8sSetup.fileWrite fs name content _ := (<[ name := content ]> fs, None)
|}.

(** A process with the given environment, whose durations are whole
    seconds written in decimal and whose client can be built. *)
Definition processWith (env : gmap string string) : K8sSetup.Process := {|
  K8sSetup.Getenv name := default "" (env !! name);
  K8sSetup.ParseDuration s :=
    let '(n, err) := Atoi s in (n * 1000000000, err);
  K8sSetup.Seconds d := d / 1000000000;
  K8sSetup.ReadEnvironment := None;
  K8sSetup.NewClient := ({| K8s.token := "" |}, None)
|}.

(** The default mounts of a development server with a revision-2 engine at
    [secret/], in two orders. *)
Definition devMounts : list (string * MountOutput) :=
  [("cubbyhole/", {| MountType := "cubbyhole"; Options := ∅ |});
   ("secret/", {| MountType := "kv"; Options := {[ "version" := "2" ]} |});
   ("sys/", {| MountType := "system"; Options := ∅ |})].

Definition devWorld : Store.World :=
  {| Store.secrets := ∅; Store.mountTable := devMounts |}.

Definition wordVersionWorld : Store.World :=
  {| Store.secrets := ∅;
     Store.mountTable :=
       [("secret/", {| MountType := "kv";
                       Options := {[ "version" := "two" ]} |})] |}.

(** A file system gives back what was written: after a write that
    returned a nil error, a read of the same name returns the content
    written and a nil error. *)
Definition readsBack {F : Type} (files : K8sSetup.Files F) : Prop :=
  forall fs name content perm fs',
    K8sSetup.fileWrite files fs name content perm = (fs', None) ->
    K8sSetup.fileRead files fs' name = (content, None).

(** A file system on which no write succeeds. *)
Definition readOnlyFiles : K8sSetup.Files unit := {|
  K8sSetup.fileRead _ _ := ("", Some (External "open: no such file or directory"));
  K8sSetup.fileWrite fs _ _ _ := (fs, Some (External "read-only file system"))
|}.

(** An environment that sets every variable [NewFromEnvironment] reads but
    the role and the identity-token path, and the [Vault] it gives. *)
Definition fullEnv : gmap string string :=
  <[ "VAULT_TOKEN_PATH" := "/tmp/vault-token" ]>
    (<[ "VAULT_REAUTH" := "true" ]>
       (<[ "VAULT_TTL" := "3600" ]>
          (<[ "VAULT_AUTH_MOUNT_PATH" := "/kubernetes/" ]>
             {[ "ALLOW_FAIL" := "F" ]}))).

Definition fullEnvVault : K8s.Vault := {|
  K8s.Role := "";
  K8s.TokenPath := "/tmp/vault-token";
  K8s.ReAuth := true;
  K8s.TTL := 3600;
  K8s.AuthMountPath := "auth/kubernetes";
  K8s.ServiceAccountTokenPath := K8sSetup.ServiceAccountTokenPath;
  K8s.AllowFail := false;
  K8s.client := {| K8s.token := "" |}
|}.


(** * Properties *)

(** ** The library model on the paths of the tests *)

Example split_ex1 : Split "secret/foo/kv/bar" "/"%char = ["secret"; "foo"; "kv"; "bar"].
Proof. reflexivity. Qed.
Example split_ex2 : Split "" "/"%char = [""].
Proof. reflexivity. Qed.
Example split_ex3 : Split "/kubernetes/" "/"%char = [""; "kubernetes"; ""].
Proof. reflexivity. Qed.
Example clean_ex1 : Clean "a/b/../c//d/./" = "a/c/d".
Proof. reflexivity. Qed.
Example clean_ex2 : Clean "/../a/.." = "/".
Proof. reflexivity. Qed.
Example clean_ex3 : Clean "../../a/../.." = "../../..".
Proof. reflexivity. Qed.
Example join_ex1 : pathJoin [""; "data"; "foo"] = "data/foo".
Proof. reflexivity. Qed.

(** ** Byte strings *)

Lemma HasPrefix_app (m r : string) : HasPrefix (m +:+ r) m = true.
Proof.
  induction m as [|c m IH]; simpl; [reflexivity|].
  now rewrite Ascii.eqb_refl.
Qed.

Lemma dropBytes_app (m r : string) : dropBytes (String.length m) (m +:+ r) = r.
Proof. induction m as [|c m IH]; simpl; [now destruct r | exact IH]. Qed.

Lemma TrimPrefix_app (m r : string) : TrimPrefix (m +:+ r) m = r.
Proof. unfold TrimPrefix. now rewrite HasPrefix_app, dropBytes_app. Qed.

Lemma Split_cons (s : string) (sep : ascii) :
  exists piece more, Split s sep = piece :: more.
Proof. unfold Split. destruct (splitFrom sep s) as [piece more]. eauto. Qed.

Lemma length_append (a b : string) :
  String.length (a +:+ b) = (String.length a + String.length b)%nat.
Proof. induction a as [|c a IH]; simpl; [reflexivity | now rewrite IH]. Qed.

Lemma HasSuffix_app (a b : string) : HasSuffix (a +:+ b) b = true.
Proof.
  unfold HasSuffix. rewrite length_append.
  replace (String.length a + String.length b - String.length b)%nat
    with (String.length a) by lia.
  rewrite dropBytes_app, String.eqb_refl.
  apply andb_true_intro; split; [apply Nat.leb_le; lia | reflexivity].
Qed.

Lemma append_assoc (a b c : string) : (a +:+ b) +:+ c = a +:+ (b +:+ c).
Proof. induction a as [|x a IH]; simpl; [reflexivity | now rewrite IH]. Qed.

Lemma append_empty_r (a : string) : a +:+ "" = a.
Proof. induction a as [|x a IH]; simpl; [reflexivity | now rewrite IH]. Qed.

Lemma splitFrom_noSlash (s : string) :
  noSlash s -> splitFrom "/" s = (s, []).
Proof.
  unfold noSlash. induction s as [|c s IH]; simpl; [reflexivity|].
  destruct (Ascii.eqb c "/"); [discriminate|].
  intros H. now rewrite (IH H).
Qed.

Lemma Split_noSlash (s : string) : noSlash s -> Split s "/" = [s].
Proof. intros H. unfold Split. now rewrite splitFrom_noSlash. Qed.

Lemma Split_app_sep (a b : string) :
  Split (a +:+ String "/" b) "/" = (Split a "/" ++ Split b "/")%list.
Proof.
  unfold Split. induction a as [|c a IH]; simpl.
  - now destruct (splitFrom "/" b).
  - destruct (splitFrom "/" (a +:+ String "/" b)) as [p1 m1].
    destruct (splitFrom "/" a) as [p2 m2].
    destruct (splitFrom "/" b) as [p3 m3].
    simpl in IH. injection IH as -> ->.
    now destruct (Ascii.eqb c "/").
Qed.

Lemma Split_Join (segs : list string) :
  segs <> [] -> Forall noSlash segs -> Split (Join segs "/") "/" = segs.
Proof.
  induction segs as [|e rest IH]; [congruence|].
  intros _ Hall. inversion Hall as [|? ? He Hrest]; subst.
  destruct rest as [|e' rest'].
  - simpl. now apply Split_noSlash.
  - change (Join (e :: e' :: rest') "/")
      with (e +:+ String "/" (Join (e' :: rest') "/")).
    rewrite Split_app_sep, (Split_noSlash e He), IH; [reflexivity| |assumption].
    congruence.
Qed.

(** ** C1: the mount-aware rewrite *)

Lemma withSlash_closed (m : string) : KvMount.withSlash (m +:+ "/") = m +:+ "/".
Proof. unfold KvMount.withSlash. now rewrite HasSuffix_app. Qed.

Lemma KvMount_FixPath_under (mount prefix rest : string) :
  head (Split rest "/") <> Some prefix ->
  KvMount.FixPath (KvMount.withSlash mount +:+ rest) mount prefix
  = Done (KvMount.withSlash mount +:+ prefix +:+ "/" +:+ rest).
Proof.
  intros Hseg. unfold KvMount.FixPath. rewrite TrimPrefix_app.
  destruct (Split_cons rest "/") as (piece & more & E).
  rewrite E in Hseg |- *. simpl.
  destruct (String.eqb_spec piece prefix) as [->|_]; [now elim Hseg|].
  reflexivity.
Qed.

(** C1. For every path under the mount (the mount with its closing slash,
    followed by [rest]) whose first segment after the mount is not the
    prefix, the mount-aware [FixPath] returns the mount, the prefix, a
    slash and [rest]; when the mount is the segments [mountSegs], however
    many, the segments of the result are [mountSegs], the prefix, then the
    segments of [rest]; and the two paths of the specification rewrite as
    it says. *)
Theorem C1_FixPath_inserts_after_mount :
  (forall mount prefix rest : string,
      head (Split rest "/") <> Some prefix ->
      KvMount.FixPath (KvMount.withSlash mount +:+ rest) mount prefix
      = Done (KvMount.withSlash mount +:+ prefix +:+ "/" +:+ rest))
  /\ (forall (mountSegs : list string) (prefix rest : string),
      mountSegs <> [] -> Forall noSlash mountSegs -> noSlash prefix ->
      head (Split rest "/") <> Some prefix ->
      exists out,
        KvMount.FixPath (Join mountSegs "/" +:+ "/" +:+ rest)
                        (Join mountSegs "/" +:+ "/") prefix = Done out
        /\ Split out "/" = (mountSegs ++ prefix :: Split rest "/")%list)
  /\ KvMount.FixPath "secret/foo" "secret/" "data" = Done "secret/data/foo"
  /\ KvMount.FixPath "secret/foo/kv/bar" "secret/foo/kv/" "data"
     = Done "secret/foo/kv/data/bar".
Proof.
  split; [exact KvMount_FixPath_under|].
  split; [|split; reflexivity].
  intros mountSegs prefix rest Hne Hall Hp Hseg.
  pose proof (KvMount_FixPath_under (Join mountSegs "/" +:+ "/") prefix rest Hseg)
    as H.
  rewrite withSlash_closed in H.
  rewrite append_assoc in H. simpl in H.
  eexists. split.
  - simpl. exact H.
  - rewrite !append_assoc. simpl.
    rewrite Split_app_sep, (Split_Join _ Hne Hall).
    change (String "/" rest) with ("" +:+ String "/" rest).
    rewrite <- append_assoc, Split_app_sep.
    rewrite append_empty_r, (Split_noSlash _ Hp). reflexivity.
Qed.

Lemma C1_witness :
  KvMount.FixPath (KvMount.withSlash "a/b/c" +:+ "x/y") "a/b/c" "metadata"
  = Done "a/b/c/metadata/x/y"
  /\ exists out,
       KvMount.FixPath "a/b/c/x/y" "a/b/c/" "data" = Done out
       /\ Split out "/" = ["a"; "b"; "c"; "data"; "x"; "y"].
Proof.
  split.
  - apply (proj1 C1_FixPath_inserts_after_mount "a/b/c" "metadata" "x/y").
    vm_compute. congruence.
  - apply (proj1 (proj2 C1_FixPath_inserts_after_mount)
             ["a"; "b"; "c"] "data" "x/y").
    + congruence.
    + repeat constructor.
    + reflexivity.
    + vm_compute. congruence.
Defined.

(** ** C7: the auth mount path *)

Lemma plainSeg_head (e : string) :
  plainSeg e -> exists c e', e = String c e' /\ Ascii.eqb c "/" = false.
Proof.
  intros [[Hns _] Hne]. destruct e as [|c e']; [congruence|].
  exists c, e'. split; [reflexivity|].
  unfold noSlash in Hns. simpl in Hns.
  destruct (Ascii.eqb c "/"); [discriminate | reflexivity].
Qed.

Lemma Join_cons_head (c : ascii) (e' : string) (rest : list string) :
  exists tl, Join (String c e' :: rest) "/" = String c tl.
Proof. destruct rest; simpl; eauto. Qed.

Lemma TrimLeft_slashes (n : nat) (c : ascii) (s : string) :
  Ascii.eqb c "/" = false ->
  TrimLeft (slashes n +:+ String c s) "/" = String c s.
Proof.
  intros Hc. induction n as [|n IH].
  - cbn [slashes String.append TrimLeft ContainsRune].
    rewrite Ascii.eqb_sym, Hc. reflexivity.
  - exact IH.
Qed.

Lemma cleanElem_ok (rooted : bool) (out : list string) (e : string) :
  okElem e ->
  cleanElem rooted out e = if String.eqb e "" then out else e :: out.
Proof.
  intros (_ & Hdot & Hdd). unfold cleanElem.
  destruct (String.eqb_spec e ""); [reflexivity|].
  destruct (String.eqb_spec e "."); [congruence|].
  destruct (String.eqb_spec e ".."); [congruence|]. reflexivity.
Qed.

Lemma fold_cleanElem_ok (rooted : bool) (elems out : list string) :
  Forall okElem elems ->
  fold_left (cleanElem rooted) elems out
  = (rev (nonEmpty elems) ++ out)%list.
Proof.
  intros Hall. revert out.
  induction Hall as [|e elems He _ IH]; intros out; simpl; [reflexivity|].
  rewrite IH, (cleanElem_ok _ _ _ He).
  destruct (String.eqb e ""); simpl; [reflexivity|].
  now rewrite <- app_assoc.
Qed.

Lemma noSlash_elems (e0 : string) (rest : list string) :
  plainSeg e0 -> Forall okElem rest -> Forall noSlash (e0 :: rest).
Proof.
  intros He0 Hrest. constructor; [apply He0|].
  induction Hrest as [|e l He _ IH]; constructor; [apply He | exact IH].
Qed.

Lemma HasPrefix_slash (c : ascii) (s : string) :
  HasPrefix (String c s) "/" = Ascii.eqb "/" c.
Proof.
  change (HasPrefix (String c s) "/")
    with (if Ascii.eqb "/" c then true else false).
  now destruct (Ascii.eqb "/" c).
Qed.

Lemma eqb_String_empty (c : ascii) (s : string) :
  String.eqb (String c s) "" = false.
Proof. reflexivity. Qed.

(** [path.Clean] on elements that need no cleaning but the removal of the
    empty ones. *)
Lemma Clean_Join_ok (e0 : string) (rest : list string) :
  plainSeg e0 -> Forall okElem rest ->
  Clean (Join (e0 :: rest) "/") = Join (nonEmpty (e0 :: rest)) "/".
Proof.
  intros He0 Hrest.
  destruct (plainSeg_head e0 He0) as (c & e' & -> & Hc).
  destruct (Join_cons_head c e' rest) as (tl & Ej).
  unfold Clean.
  assert (Hsplit : Split (Join (String c e' :: rest) "/") "/"
                   = String c e' :: rest).
  { apply Split_Join; [congruence|]. now apply noSlash_elems. }
  rewrite Hsplit, Ej, eqb_String_empty, HasPrefix_slash, Ascii.eqb_sym, Hc.
  rewrite fold_cleanElem_ok by (constructor; [apply He0 | exact Hrest]).
  rewrite app_nil_r, rev_involutive. simpl.
  destruct (nonEmpty rest); reflexivity.
Qed.

Lemma pathJoin_ok (e0 : string) (rest : list string) :
  plainSeg e0 -> Forall okElem rest ->
  pathJoin (e0 :: rest) = Join (nonEmpty (e0 :: rest)) "/".
Proof.
  intros He0 Hrest. cbn [pathJoin].
  destruct (String.eqb_spec e0 "") as [E|_]; [now destruct He0|].
  now apply Clean_Join_ok.
Qed.

Lemma plainSeg_auth : plainSeg "auth".
Proof. repeat split; discriminate. Qed.

Lemma FixAuthMountPath_plain (n : nat) (e0 : string) (rest : list string) :
  plainSeg e0 -> Forall okElem rest ->
  K8s.FixAuthMountPath (slashes n +:+ Join (e0 :: rest) "/")
  = Done (if String.eqb e0 "auth" then Join (nonEmpty (e0 :: rest)) "/"
          else "auth/" +:+ Join (nonEmpty (e0 :: rest)) "/").
Proof.
  intros He0 Hrest. unfold K8s.FixAuthMountPath.
  destruct (plainSeg_head e0 He0) as (c & e' & E & Hc).
  destruct (Join_cons_head c e' rest) as (tl & Ej).
  rewrite E, Ej, (TrimLeft_slashes n c tl Hc), <- Ej, <- E.
  rewrite Split_Join.
  2: congruence.
  2: now apply noSlash_elems.
  change (index (e0 :: rest) 0) with (Done e0). cbn [bind].
  destruct (String.eqb e0 "auth").
  - now rewrite pathJoin_ok.
  - rewrite (pathJoin_ok "auth" (e0 :: rest) plainSeg_auth).
    2: { constructor; [apply He0 | exact Hrest]. }
    rewrite E. simpl.
    destruct (Join_cons_head c e' (nonEmpty rest)) as (tl' & E').
    destruct (nonEmpty rest); reflexivity.
Qed.

Lemma nonEmpty_plain (segs : list string) :
  Forall plainSeg segs -> nonEmpty segs = segs.
Proof.
  induction 1 as [|e l He _ IH]; [reflexivity|].
  unfold nonEmpty in *. simpl.
  destruct (String.eqb_spec e "") as [E|_]; [now destruct He|].
  simpl. now rewrite IH.
Qed.

Lemma plainSeg_okElem_all (segs : list string) :
  Forall plainSeg segs -> Forall okElem segs.
Proof. induction 1 as [|e l He _ IH]; constructor; [apply He | exact IH]. Qed.

(** C7. [FixAuthMountPath] removes the leading slashes and splits on
    slashes; for a path of plain segments it returns the trimmed path
    itself when the first segment is [auth] and the trimmed path behind
    [auth/] otherwise; elements that are empty (a closing or doubled slash)
    are dropped on the way; and the four paths of the specification
    normalise as it says. *)
Theorem C7_FixAuthMountPath :
  (forall (n : nat) (segs : list string),
      Forall plainSeg segs -> head segs = Some "auth" ->
      K8s.FixAuthMountPath (slashes n +:+ Join segs "/")
      = Done (Join segs "/"))
  /\ (forall (n : nat) (segs : list string),
      Forall plainSeg segs -> segs <> [] -> head segs <> Some "auth" ->
      K8s.FixAuthMountPath (slashes n +:+ Join segs "/")
      = Done ("auth/" +:+ Join segs "/"))
  /\ (forall (n : nat) (e0 : string) (rest : list string),
      plainSeg e0 -> Forall okElem rest ->
      K8s.FixAuthMountPath (slashes n +:+ Join (e0 :: rest) "/")
      = Done (if String.eqb e0 "auth"
              then Join (nonEmpty (e0 :: rest)) "/"
              else "auth/" +:+ Join (nonEmpty (e0 :: rest)) "/"))
  /\ K8s.FixAuthMountPath "kubernetes" = Done "auth/kubernetes"
  /\ K8s.FixAuthMountPath "/kubernetes/" = Done "auth/kubernetes"
  /\ K8s.FixAuthMountPath "auth/kubernetes" = Done "auth/kubernetes"
  /\ K8s.FixAuthMountPath "kubernetes/something"
     = Done "auth/kubernetes/something".
Proof.
  split; [|split; [|split; [exact FixAuthMountPath_plain|]]].
  - intros n segs Hall Hhd.
    destruct segs as [|e0 rest]; [discriminate|].
    injection Hhd as ->. inversion Hall as [|? ? He0 Hrest]; subst.
    rewrite FixAuthMountPath_plain
      by (try assumption; now apply plainSeg_okElem_all).
    now rewrite (nonEmpty_plain _ Hall).
  - intros n segs Hall Hne Hhd.
    destruct segs as [|e0 rest]; [congruence|].
    inversion Hall as [|? ? He0 Hrest]; subst.
    rewrite FixAuthMountPath_plain
      by (try assumption; now apply plainSeg_okElem_all).
    destruct (String.eqb_spec e0 "auth") as [->|_]; [now elim Hhd|].
    now rewrite (nonEmpty_plain _ Hall).
  - repeat split; reflexivity.
Qed.

Lemma C7_witness :
  K8s.FixAuthMountPath (slashes 2 +:+ Join ["auth"; "kubernetes"; "prod"] "/")
  = Done "auth/kubernetes/prod"
  /\ K8s.FixAuthMountPath (slashes 1 +:+ Join ["kubernetes"; "prod"] "/")
     = Done "auth/kubernetes/prod"
  /\ K8s.FixAuthMountPath (slashes 0 +:+ Join ["kubernetes"; ""; "prod"; ""] "/")
     = Done "auth/kubernetes/prod".
Proof.
  split; [|split].
  - apply (proj1 C7_FixAuthMountPath 2%nat ["auth"; "kubernetes"; "prod"]).
    + repeat constructor; discriminate.
    + reflexivity.
  - apply (proj1 (proj2 C7_FixAuthMountPath) 1%nat ["kubernetes"; "prod"]).
    + repeat constructor; discriminate.
    + discriminate.
    + discriminate.
  - apply (proj1 (proj2 (proj2 C7_FixAuthMountPath))
             0%nat "kubernetes" [""; "prod"; ""]).
    + repeat constructor; discriminate.
    + repeat constructor; discriminate.
Defined.

(** ** C6: no secret at the path *)

Section NotFound.
Context {W : Type} (svc : Service W).

Lemma KvOld_Read_nil (c : KvOld.Client) (w : W) (p : string) :
  LogicalRead svc w
    (if KvOld.Version c =? 2 then KvOld.fixPath p ReadPrefix else p)
  = (None, None) ->
  KvOld.Read svc c w p
  = Done (None, Some (Errorf "failed to read path %s" [FStr p])).
Proof. intros H. unfold KvOld.Read. now rewrite H. Qed.

Lemma KvOld_List_nil (c : KvOld.Client) (w : W) (p : string) :
  LogicalList svc w
    (if KvOld.Version c =? 2 then KvOld.fixPath p ListPrefix else p)
  = (None, None) ->
  KvOld.List svc c w p
  = Done (None, Some (Errorf "failed to list path %s" [FStr p])).
Proof. intros H. unfold KvOld.List. now rewrite H. Qed.

Lemma KvFirst_Read_nil (c : KvFirst.Client) (w : W) (p p' : string) :
  (if KvFirst.Version c =? 2 then KvFirst.FixPath p ReadPrefix else Done p)
  = Done p' ->
  noSecret (LogicalRead svc w p') ->
  KvFirst.Read svc c w p = Done (None, None).
Proof.
  intros Hp H. unfold KvFirst.Read. rewrite Hp. cbn [bind].
  destruct H as [-> | (s & -> & Hd)]; [reflexivity | now rewrite Hd].
Qed.

Lemma KvFirst_List_nil (c : KvFirst.Client) (w : W) (p p' : string) :
  (if KvFirst.Version c =? 2 then KvFirst.FixPath p ListPrefix else Done p)
  = Done p' ->
  noSecret (LogicalList svc w p') ->
  KvFirst.List svc c w p = Done (None, None).
Proof.
  intros Hp H. unfold KvFirst.List. rewrite Hp. cbn [bind].
  destruct H as [-> | (s & -> & Hd)]; [reflexivity | now rewrite Hd].
Qed.

Lemma KvMount_Read_nil (c : KvMount.Client) (w : W) (p p' : string) :
  (if KvMount.Version c =? 2
   then KvMount.FixPath p (KvMount.Mount c) ReadPrefix else Done p)
  = Done p' ->
  noSecret (LogicalRead svc w p') ->
  KvMount.Read svc c w p = Done (None, None).
Proof.
  intros Hp H. unfold KvMount.Read. rewrite Hp. cbn [bind].
  destruct H as [-> | (s & -> & Hd)]; [reflexivity | now rewrite Hd].
Qed.

Lemma KvMount_List_nil (c : KvMount.Client) (w : W) (p p' : string) :
  (if KvMount.Version c =? 2
   then KvMount.FixPath p (KvMount.Mount c) ListPrefix else Done p)
  = Done p' ->
  noSecret (LogicalList svc w p') ->
  KvMount.List svc c w p = Done (None, None).
Proof.
  intros Hp H. unfold KvMount.List. rewrite Hp. cbn [bind].
  destruct H as [-> | (s & -> & Hd)]; [reflexivity | now rewrite Hd].
Qed.

End NotFound.

(** C6. When the collaborator answers with no secret and no error at the
    path the client sends: [Read] and [List] of src/kv/kv.go return the
    nil result and the error made of "failed to read path %s" (resp.
    "failed to list path %s") and the path the caller gave, not the
    rewritten one; [Read] and [List] of both files of part_002 return the
    nil result and a nil error, also when the secret is there and its data
    body is nil. *)
Theorem C6_not_found_policy :
  forall (W : Type) (svc : Service W) (w : W) (p : string),
    (forall c : KvOld.Client,
        (LogicalRead svc w
           (if KvOld.Version c =? 2 then KvOld.fixPath p ReadPrefix else p)
         = (None, None) ->
         KvOld.Read svc c w p
         = Done (None, Some (Errorf "failed to read path %s" [FStr p])))
        /\ (LogicalList svc w
              (if KvOld.Version c =? 2 then KvOld.fixPath p ListPrefix else p)
            = (None, None) ->
            KvOld.List svc c w p
            = Done (None, Some (Errorf "failed to list path %s" [FStr p]))))
    /\ (forall (c : KvFirst.Client) (p' : string),
        ((if KvFirst.Version c =? 2
          then KvFirst.FixPath p ReadPrefix else Done p) = Done p' ->
         noSecret (LogicalRead svc w p') ->
         KvFirst.Read svc c w p = Done (None, None))
        /\ ((if KvFirst.Version c =? 2
             then KvFirst.FixPath p ListPrefix else Done p) = Done p' ->
            noSecret (LogicalList svc w p') ->
            KvFirst.List svc c w p = Done (None, None)))
    /\ (forall (c : KvMount.Client) (p' : string),
        ((if KvMount.Version c =? 2
          then KvMount.FixPath p (KvMount.Mount c) ReadPrefix else Done p)
         = Done p' ->
         noSecret (LogicalRead svc w p') ->
         KvMount.Read svc c w p = Done (None, None))
        /\ ((if KvMount.Version c =? 2
             then KvMount.FixPath p (KvMount.Mount c) ListPrefix else Done p)
            = Done p' ->
            noSecret (LogicalList svc w p') ->
            KvMount.List svc c w p = Done (None, None))).
Proof.
  intros W svc w p. repeat split.
  - apply KvOld_Read_nil.
  - apply KvOld_List_nil.
  - apply KvFirst_Read_nil.
  - apply KvFirst_List_nil.
  - apply KvMount_Read_nil.
  - apply KvMount_List_nil.
Qed.

Lemma C6_witness :
  KvOld.Read Store.service {| KvOld.Version := 2 |} nilBodyWorld "secret/other"
  = Done (None, Some (Errorf "failed to read path %s" [FStr "secret/other"]))
  /\ KvOld.List Store.service {| KvOld.Version := 2 |} nilBodyWorld "secret/other"
     = Done (None, Some (Errorf "failed to list path %s" [FStr "secret/other"]))
  /\ KvFirst.Read Store.service {| KvFirst.Version := 2 |} nilBodyWorld
       "secret/test" = Done (None, None)
  /\ KvFirst.List Store.service {| KvFirst.Version := 2 |} nilBodyWorld
       "secret/other" = Done (None, None)
  /\ KvMount.Read Store.service
       {| KvMount.Version := 2; KvMount.Mount := "secret/" |} nilBodyWorld
       "secret/test" = Done (None, None)
  /\ KvMount.List Store.service
       {| KvMount.Version := 2; KvMount.Mount := "secret/" |} nilBodyWorld
       "secret/other" = Done (None, None).
Proof.
  pose proof (C6_not_found_policy Store.World Store.service nilBodyWorld
                "secret/other") as (Hold & Hfirst & Hmount).
  pose proof (C6_not_found_policy Store.World Store.service nilBodyWorld
                "secret/test") as (_ & Hfirst' & Hmount').
  split; [|split; [|split; [|split; [|split]]]].
  - apply (proj1 (Hold {| KvOld.Version := 2 |})). reflexivity.
  - apply (proj2 (Hold {| KvOld.Version := 2 |})). reflexivity.
  - apply (proj1 (Hfirst' {| KvFirst.Version := 2 |} "secret/data/test")).
    + reflexivity.
    + right. eexists. split; reflexivity.
  - apply (proj2 (Hfirst {| KvFirst.Version := 2 |} "secret/metadata/other")).
    + reflexivity.
    + left. reflexivity.
  - apply (proj1 (Hmount' {| KvMount.Version := 2; KvMount.Mount := "secret/" |}
                    "secret/data/test")).
    + reflexivity.
    + right. eexists. split; reflexivity.
  - apply (proj2 (Hmount {| KvMount.Version := 2; KvMount.Mount := "secret/" |}
                    "secret/metadata/other")).
    + reflexivity.
    + left. reflexivity.
Defined.

(** ** C10: the type assertions on the response body *)

Lemma assertMap_panics (v : value) :
  ~ wellFormedData v -> panics (assertMap v).
Proof.
  intros H. destruct v; simpl; try exact I. apply H. now eexists.
Qed.

Lemma appendKeys_strings (names keys : list string) :
  appendKeys keys (VString <$> names) = Done (keys ++ names)%list.
Proof.
  revert keys. induction names as [|n names IH]; intros keys; simpl.
  - now rewrite app_nil_r.
  - rewrite IH, <- app_assoc. reflexivity.
Qed.

Lemma appendKeys_panics (l : list value) (keys : list string) :
  (forall names, l <> VString <$> names) -> panics (appendKeys keys l).
Proof.
  revert keys. induction l as [|v l IH]; intros keys H.
  - now elim (H []).
  - destruct v as [| s | | | |]; simpl; try exact I.
    apply IH. intros names ->. now apply (H (s :: names)).
Qed.

Lemma keys_panics (v : value) :
  ~ wellFormedKeys v ->
  panics (bind (assertList v) (fun l =>
          bind (appendKeys [] l) (fun keys => Done (Some keys, @None error)))).
Proof.
  intros H. destruct v as [| | | | l |]; simpl; try exact I.
  pose proof (appendKeys_panics l []) as P.
  destruct (appendKeys [] l); simpl in *; [|exact I].
  apply P. intros names ->. apply H. now exists names.
Qed.

Lemma keys_done (names : list string) :
  bind (assertList (VList (VString <$> names))) (fun l =>
  bind (appendKeys [] l) (fun keys => Done (Some keys, @None error)))
  = Done (Some names, None).
Proof. simpl. now rewrite appendKeys_strings. Qed.

Section Assertions.
Context {W : Type} (svc : Service W) (w : W) (p : string).

Lemma KvOld_Read_v2 (c : KvOld.Client) (s : Secret) :
  KvOld.Version c = 2 ->
  LogicalRead svc w (KvOld.fixPath p ReadPrefix) = (Some s, None) ->
  (~ wellFormedData (mapIndex (Data s) "data") ->
   panics (KvOld.Read svc c w p))
  /\ (forall m, mapIndex (Data s) "data" = VMap m ->
                KvOld.Read svc c w p = Done (m, None)).
Proof.
  intros Hv Hr. unfold KvOld.Read. rewrite Hv. simpl Z.eqb. cbv iota.
  rewrite Hr. split.
  - intros H. pose proof (assertMap_panics _ H) as P.
    now destruct (assertMap (mapIndex (Data s) "data")).
  - now intros m ->.
Qed.

Lemma KvOld_List_v2 (c : KvOld.Client) (s : Secret) :
  KvOld.Version c = 2 ->
  LogicalList svc w (KvOld.fixPath p ListPrefix) = (Some s, None) ->
  (~ wellFormedKeys (mapIndex (Data s) "keys") ->
   panics (KvOld.List svc c w p))
  /\ (forall names, mapIndex (Data s) "keys" = VList (VString <$> names) ->
                    KvOld.List svc c w p = Done (Some names, None)).
Proof.
  intros Hv Hr. unfold KvOld.List. rewrite Hv. simpl Z.eqb. cbv iota.
  rewrite Hr. split.
  - apply keys_panics.
  - intros names ->. apply keys_done.
Qed.

Lemma KvFirst_Read_v2 (c : KvFirst.Client) (s : Secret) (p' : string)
      (g : gmap string value) :
  KvFirst.Version c = 2 ->
  KvFirst.FixPath p ReadPrefix = Done p' ->
  LogicalRead svc w p' = (Some s, None) ->
  Data s = Some g ->
  (~ wellFormedData (mapIndex (Data s) "data") ->
   panics (KvFirst.Read svc c w p))
  /\ (forall m, mapIndex (Data s) "data" = VMap m ->
                KvFirst.Read svc c w p = Done (m, None)).
Proof.
  intros Hv Hp Hr Hd. unfold KvFirst.Read. rewrite Hv. simpl Z.eqb. cbv iota.
  rewrite Hp. cbn [bind]. rewrite Hr, Hd. rewrite <- Hd. split.
  - intros H. pose proof (assertMap_panics _ H) as P.
    now destruct (assertMap (mapIndex (Data s) "data")).
  - now intros m ->.
Qed.

Lemma KvFirst_List_v2 (c : KvFirst.Client) (s : Secret) (p' : string)
      (g : gmap string value) :
  KvFirst.Version c = 2 ->
  KvFirst.FixPath p ListPrefix = Done p' ->
  LogicalList svc w p' = (Some s, None) ->
  Data s = Some g ->
  (~ wellFormedKeys (mapIndex (Data s) "keys") ->
   panics (KvFirst.List svc c w p))
  /\ (forall names, mapIndex (Data s) "keys" = VList (VString <$> names) ->
                    KvFirst.List svc c w p = Done (Some names, None)).
Proof.
  intros Hv Hp Hr Hd. unfold KvFirst.List. rewrite Hv. simpl Z.eqb. cbv iota.
  rewrite Hp. cbn [bind]. rewrite Hr, Hd. rewrite <- Hd. split.
  - apply keys_panics.
  - intros names ->. apply keys_done.
Qed.

Lemma KvMount_Read_v2 (c : KvMount.Client) (s : Secret) (p' : string)
      (g : gmap string value) :
  KvMount.Version c = 2 ->
  KvMount.FixPath p (KvMount.Mount c) ReadPrefix = Done p' ->
  LogicalRead svc w p' = (Some s, None) ->
  Data s = Some g ->
  (~ wellFormedData (mapIndex (Data s) "data") ->
   panics (KvMount.Read svc c w p))
  /\ (forall m, mapIndex (Data s) "data" = VMap m ->
                KvMount.Read svc c w p = Done (m, None)).
Proof.
  intros Hv Hp Hr Hd. unfold KvMount.Read. rewrite Hv. simpl Z.eqb. cbv iota.
  rewrite Hp. cbn [bind]. rewrite Hr, Hd. rewrite <- Hd. split.
  - intros H. pose proof (assertMap_panics _ H) as P.
    now destruct (assertMap (mapIndex (Data s) "data")).
  - now intros m ->.
Qed.

Lemma KvMount_List_v2 (c : KvMount.Client) (s : Secret) (p' : string)
      (g : gmap string value) :
  KvMount.Version c = 2 ->
  KvMount.FixPath p (KvMount.Mount c) ListPrefix = Done p' ->
  LogicalList svc w p' = (Some s, None) ->
  Data s = Some g ->
  (~ wellFormedKeys (mapIndex (Data s) "keys") ->
   panics (KvMount.List svc c w p))
  /\ (forall names, mapIndex (Data s) "keys" = VList (VString <$> names) ->
                    KvMount.List svc c w p = Done (Some names, None)).
Proof.
  intros Hv Hp Hr Hd. unfold KvMount.List. rewrite Hv. simpl Z.eqb. cbv iota.
  rewrite Hp. cbn [bind]. rewrite Hr, Hd. rewrite <- Hd. split.
  - apply keys_panics.
  - intros names ->. apply keys_done.
Qed.

End Assertions.

(** C10, as the code has it. On a revision-2 client, for a response that
    passes the nil guards (a non-nil secret in src/kv/kv.go; a non-nil
    secret with a non-nil data body in both files of part_002): [Read]
    panics when the body holds no map under [data] and returns that map
    with a nil error when it does; [List] panics when the body holds no
    list of strings under [keys] and returns the strings with a nil error
    when it does. No malformed body is turned into an error. *)
Theorem C10_unguarded_assertions :
  forall (W : Type) (svc : Service W) (w : W) (p : string) (s : Secret),
    (forall c : KvOld.Client,
        KvOld.Version c = 2 ->
        (LogicalRead svc w (KvOld.fixPath p ReadPrefix) = (Some s, None) ->
         (~ wellFormedData (mapIndex (Data s) "data") ->
          panics (KvOld.Read svc c w p))
         /\ (forall m, mapIndex (Data s) "data" = VMap m ->
                       KvOld.Read svc c w p = Done (m, None)))
        /\ (LogicalList svc w (KvOld.fixPath p ListPrefix) = (Some s, None) ->
            (~ wellFormedKeys (mapIndex (Data s) "keys") ->
             panics (KvOld.List svc c w p))
            /\ (forall names,
                   mapIndex (Data s) "keys" = VList (VString <$> names) ->
                   KvOld.List svc c w p = Done (Some names, None))))
    /\ (forall (c : KvFirst.Client) (p' : string) (g : gmap string value),
        KvFirst.Version c = 2 -> Data s = Some g ->
        (KvFirst.FixPath p ReadPrefix = Done p' ->
         LogicalRead svc w p' = (Some s, None) ->
         (~ wellFormedData (mapIndex (Data s) "data") ->
          panics (KvFirst.Read svc c w p))
         /\ (forall m, mapIndex (Data s) "data" = VMap m ->
                       KvFirst.Read svc c w p = Done (m, None)))
        /\ (KvFirst.FixPath p ListPrefix = Done p' ->
            LogicalList svc w p' = (Some s, None) ->
            (~ wellFormedKeys (mapIndex (Data s) "keys") ->
             panics (KvFirst.List svc c w p))
            /\ (forall names,
                   mapIndex (Data s) "keys" = VList (VString <$> names) ->
                   KvFirst.List svc c w p = Done (Some names, None))))
    /\ (forall (c : KvMount.Client) (p' : string) (g : gmap string value),
        KvMount.Version c = 2 -> Data s = Some g ->
        (KvMount.FixPath p (KvMount.Mount c) ReadPrefix = Done p' ->
         LogicalRead svc w p' = (Some s, None) ->
         (~ wellFormedData (mapIndex (Data s) "data") ->
          panics (KvMount.Read svc c w p))
         /\ (forall m, mapIndex (Data s) "data" = VMap m ->
                       KvMount.Read svc c w p = Done (m, None)))
        /\ (KvMount.FixPath p (KvMount.Mount c) ListPrefix = Done p' ->
            LogicalList svc w p' = (Some s, None) ->
            (~ wellFormedKeys (mapIndex (Data s) "keys") ->
             panics (KvMount.List svc c w p))
            /\ (forall names,
                   mapIndex (Data s) "keys" = VList (VString <$> names) ->
                   KvMount.List svc c w p = Done (Some names, None)))).
Proof.
  intros W svc w p s. split; [|split].
  - intros c Hv. split; intros Hr.
    + now apply KvOld_Read_v2.
    + now apply KvOld_List_v2.
  - intros c p' g Hv Hd. split; intros Hp Hr.
    + now apply (KvFirst_Read_v2 svc w p c s p' g).
    + now apply (KvFirst_List_v2 svc w p c s p' g).
  - intros c p' g Hv Hd. split; intros Hp Hr.
    + now apply (KvMount_Read_v2 svc w p c s p' g).
    + now apply (KvMount_List_v2 svc w p c s p' g).
Qed.

Lemma malformed_data : ~ wellFormedData (mapIndex (Data malformedSecret) "data").
Proof. intros [m H]. vm_compute in H. discriminate. Qed.

Lemma malformed_keys : ~ wellFormedKeys (mapIndex (Data malformedSecret) "keys").
Proof. intros [names H]. vm_compute in H. discriminate. Qed.

Lemma C10_witness :
  panics (KvOld.Read (fixedService malformedSecret)
            {| KvOld.Version := 2 |} tt "secret/foo")
  /\ panics (KvOld.List (fixedService malformedSecret)
               {| KvOld.Version := 2 |} tt "secret/foo")
  /\ panics (KvFirst.Read (fixedService malformedSecret)
               {| KvFirst.Version := 2 |} tt "secret/foo")
  /\ panics (KvFirst.List (fixedService malformedSecret)
               {| KvFirst.Version := 2 |} tt "secret/foo")
  /\ panics (KvMount.Read (fixedService malformedSecret)
               {| KvMount.Version := 2; KvMount.Mount := "secret/" |}
               tt "secret/foo")
  /\ panics (KvMount.List (fixedService malformedSecret)
               {| KvMount.Version := 2; KvMount.Mount := "secret/" |}
               tt "secret/foo")
  /\ KvMount.Read (fixedService wellFormedSecret)
       {| KvMount.Version := 2; KvMount.Mount := "secret/" |} tt "secret/foo"
     = Done (Some {[ "k" := VString "v" ]}, None)
  /\ KvMount.List (fixedService wellFormedSecret)
       {| KvMount.Version := 2; KvMount.Mount := "secret/" |} tt "secret/foo"
     = Done (Some ["first"; "second"], None).
Proof.
  pose proof (C10_unguarded_assertions unit (fixedService malformedSecret) tt
                "secret/foo" malformedSecret) as (Hold & Hfirst & Hmount).
  pose proof (C10_unguarded_assertions unit (fixedService wellFormedSecret) tt
                "secret/foo" wellFormedSecret) as (_ & _ & Hgood).
  specialize (Hold {| KvOld.Version := 2 |} eq_refl) as [Ho1 Ho2].
  specialize (Hfirst {| KvFirst.Version := 2 |}).
  specialize (Hmount {| KvMount.Version := 2; KvMount.Mount := "secret/" |}).
  specialize (Hgood {| KvMount.Version := 2; KvMount.Mount := "secret/" |}).
  refine (conj _ (conj _ (conj _ (conj _ (conj _ (conj _ (conj _ _))))))).
  - apply (Ho1 eq_refl), malformed_data.
  - apply (Ho2 eq_refl), malformed_keys.
  - apply (proj1 (Hfirst "secret/data/foo" _ eq_refl eq_refl) eq_refl eq_refl),
      malformed_data.
  - apply (proj2 (Hfirst "secret/metadata/foo" _ eq_refl eq_refl)
             eq_refl eq_refl), malformed_keys.
  - apply (proj1 (Hmount "secret/data/foo" _ eq_refl eq_refl) eq_refl eq_refl),
      malformed_data.
  - apply (proj2 (Hmount "secret/metadata/foo" _ eq_refl eq_refl)
             eq_refl eq_refl), malformed_keys.
  - apply (proj2 (proj1 (Hgood "secret/data/foo" _ eq_refl eq_refl)
                    eq_refl eq_refl)).
    reflexivity.
  - apply (proj2 (proj2 (Hgood "secret/metadata/foo" _ eq_refl eq_refl)
                    eq_refl eq_refl) ["first"; "second"]).
    reflexivity.
Defined.

(** The claim as written fails in part_002: a non-nil response whose body
    is nil holds no map under [data], and [Read] on revision 2 returns the
    nil result with a nil error instead of panicking. *)
Lemma C10_counterexample :
  ~ (forall (W : Type) (svc : Service W) (w : W) (c : KvFirst.Client)
            (p p' : string) (s : Secret),
        KvFirst.Version c = 2 ->
        KvFirst.FixPath p ReadPrefix = Done p' ->
        LogicalRead svc w p' = (Some s, None) ->
        ~ wellFormedData (mapIndex (Data s) "data") ->
        panics (KvFirst.Read svc c w p)).
Proof.
  intros H.
  apply (H Store.World Store.service nilBodyWorld {| KvFirst.Version := 2 |}
           "secret/test" "secret/data/test" (Store.bodyOf None));
    try reflexivity.
  intros [m E]. discriminate.
Qed.

(** ** C3: write, then read *)

Lemma Split_two (s : string) :
  ContainsRune s "/" = true ->
  exists a b more, Split s "/" = a :: b :: more.
Proof.
  unfold Split. induction s as [|c s IH]; simpl; [discriminate|].
  destruct (splitFrom "/" s) as [piece more] eqn:E.
  destruct (Ascii.eqb c "/"); [eauto|].
  intros H. destruct (IH H) as (a & b & more' & E').
  injection E' as -> ->. eauto.
Qed.


Lemma KvFirst_FixPath_total (p prefix : string) :
  ContainsRune p "/" = true -> exists p', KvFirst.FixPath p prefix = Done p'.
Proof.
  intros H. destruct (Split_two p H) as (a & b & more & E).
  unfold KvFirst.FixPath. rewrite E. simpl.
  destruct (String.eqb b prefix); eauto.
Qed.

Lemma KvMount_FixPath_total (p mount prefix : string) :
  exists p', KvMount.FixPath p mount prefix = Done p'.
Proof.
  unfold KvMount.FixPath.
  destruct (Split_cons (TrimPrefix p (KvMount.withSlash mount)) "/")
    as (piece & more & ->).
  simpl. destruct (String.eqb piece prefix); eauto.
Qed.






Section RoundTrip.
Context (w : Store.World).







End RoundTrip.





(** ** C8: login warnings *)

Lemma FixAuthMountPath_total (p : string) :
  exists mp, K8s.FixAuthMountPath p = Done mp.
Proof.
  unfold K8s.FixAuthMountPath.
  destruct (Split_cons (TrimLeft p "/") "/") as (piece & more & ->).
  simpl. destruct (String.eqb piece "auth"); eauto.
Qed.

Section Login.
Context (host : K8s.Host) (v : K8s.Vault).

Lemma Authenticate_warnings (content mp : string) (s : Secret) :
  K8s.ReadFile host (K8s.ServiceAccountTokenPath v) = (content, None) ->
  K8s.FixAuthMountPath (K8s.AuthMountPath v) = Done mp ->
  loginCall host v content mp = (Some s, None) ->
  Warnings s <> [] ->
  K8s.Authenticate host v
  = Done ("", Some (Errorf "login failed with: %s"
                      [FStr (Join (Warnings s) " - ")])).
Proof.
  intros Hf Hmp Hl Hw. unfold K8s.Authenticate, loginCall in *.
  rewrite Hf, Hmp. cbn [bind]. rewrite Hl.
  destruct (Warnings s); [congruence | reflexivity].
Qed.

Lemma Authenticate_token (content mp : string) (s : Secret) (a : SecretAuth) :
  K8s.ReadFile host (K8s.ServiceAccountTokenPath v) = (content, None) ->
  K8s.FixAuthMountPath (K8s.AuthMountPath v) = Done mp ->
  loginCall host v content mp = (Some s, None) ->
  Warnings s = [] -> Auth s = Some a ->
  K8s.Authenticate host v = Done (ClientToken a, None).
Proof.
  intros Hf Hmp Hl Hw Ha. unfold K8s.Authenticate, loginCall in *.
  rewrite Hf, Hmp. cbn [bind]. now rewrite Hl, Hw, Ha.
Qed.

Lemma Authenticate_success_inv (tok : string) :
  K8s.Authenticate host v = Done (tok, None) ->
  exists content mp s a,
    K8s.ReadFile host (K8s.ServiceAccountTokenPath v) = (content, None)
    /\ K8s.FixAuthMountPath (K8s.AuthMountPath v) = Done mp
    /\ loginCall host v content mp = (Some s, None)
    /\ Warnings s = [] /\ Auth s = Some a /\ tok = ClientToken a.
Proof.
  unfold K8s.Authenticate, loginCall.
  destruct (K8s.ReadFile host (K8s.ServiceAccountTokenPath v))
    as [content [e|]] eqn:Hf; [discriminate|].
  destruct (FixAuthMountPath_total (K8s.AuthMountPath v)) as (mp & Hmp).
  rewrite Hmp. cbn [bind].
  destruct (K8s.LoginWrite host (K8s.client v) (pathJoin [mp; "login"])
              (Some (K8s.loginData (K8s.Role v) (K8s.TrimSpace host content))))
    as [[s|] [e|]] eqn:Hl; try discriminate.
  destruct (Warnings s) as [|x l] eqn:Hw; [|discriminate]. simpl.
  destruct (Auth s) as [a|] eqn:Ha; [|discriminate].
  intros H. injection H as <-.
  exists content, mp, s, a. auto 10.
Qed.

End Login.

(** C8. Once the identity token is read and the login call returns a
    response with no error: if the response carries at least one warning,
    [Authenticate] returns the empty token and the error made of
    "login failed with: %s" and the warnings, whatever client token the
    response holds; [Authenticate] returns a token with a nil error only
    when the login call returned no error and a response without warnings,
    and the token is then the response's client token; and such a response
    does make it return that token. *)
Theorem C8_Authenticate_warnings :
  forall (host : K8s.Host) (v : K8s.Vault),
    (forall (content mp : string) (s : Secret),
        K8s.ReadFile host (K8s.ServiceAccountTokenPath v) = (content, None) ->
        K8s.FixAuthMountPath (K8s.AuthMountPath v) = Done mp ->
        loginCall host v content mp = (Some s, None) ->
        Warnings s <> [] ->
        K8s.Authenticate host v
        = Done ("", Some (Errorf "login failed with: %s"
                            [FStr (Join (Warnings s) " - ")])))
    /\ (forall tok : string,
        K8s.Authenticate host v = Done (tok, None) ->
        exists content mp s a,
          K8s.ReadFile host (K8s.ServiceAccountTokenPath v) = (content, None)
          /\ K8s.FixAuthMountPath (K8s.AuthMountPath v) = Done mp
          /\ loginCall host v content mp = (Some s, None)
          /\ Warnings s = [] /\ Auth s = Some a /\ tok = ClientToken a)
    /\ (forall (content mp : string) (s : Secret) (a : SecretAuth),
        K8s.ReadFile host (K8s.ServiceAccountTokenPath v) = (content, None) ->
        K8s.FixAuthMountPath (K8s.AuthMountPath v) = Done mp ->
        loginCall host v content mp = (Some s, None) ->
        Warnings s = [] -> Auth s = Some a ->
        K8s.Authenticate host v = Done (ClientToken a, None)).
Proof.
  intros host v. split; [|split].
  - apply Authenticate_warnings.
  - apply Authenticate_success_inv.
  - apply Authenticate_token.
Qed.

Lemma C8_witness :
  K8s.Authenticate
    (hostWith {[ "/tmp/sa-token" := "jwt" ]} (Some warningResponse, None) None)
    (testVault false)
  = Done ("", Some (Errorf "login failed with: %s" [FStr "warning"]))
  /\ K8s.Authenticate
       (hostWith {[ "/tmp/sa-token" := "jwt" ]} (Some tokenResponse, None) None)
       (testVault false)
     = Done (rootToken, None)
  /\ exists content mp s a,
       K8s.ReadFile
         (hostWith {[ "/tmp/sa-token" := "jwt" ]} (Some tokenResponse, None) None)
         "/tmp/sa-token" = (content, None)
       /\ K8s.FixAuthMountPath "auth/kubernetes" = Done mp
       /\ loginCall
            (hostWith {[ "/tmp/sa-token" := "jwt" ]}
                      (Some tokenResponse, None) None)
            (testVault false) content mp = (Some s, None)
       /\ Warnings s = [] /\ Auth s = Some a /\ rootToken = ClientToken a.
Proof.
  pose proof (C8_Authenticate_warnings
                (hostWith {[ "/tmp/sa-token" := "jwt" ]}
                          (Some warningResponse, None) None)
                (testVault false)) as (Hwarn & _ & _).
  pose proof (C8_Authenticate_warnings
                (hostWith {[ "/tmp/sa-token" := "jwt" ]}
                          (Some tokenResponse, None) None)
                (testVault false)) as (_ & Honly & Htok).
  assert (Hdone :
    K8s.Authenticate
      (hostWith {[ "/tmp/sa-token" := "jwt" ]} (Some tokenResponse, None) None)
      (testVault false) = Done (rootToken, None)).
  { apply (Htok "jwt" "auth/kubernetes" tokenResponse
                {| ClientToken := rootToken |}); reflexivity. }
  refine (conj _ (conj Hdone (Honly rootToken Hdone))).
  apply (Hwarn "jwt" "auth/kubernetes" warningResponse);
    [reflexivity | reflexivity | reflexivity | discriminate].
Defined.

(** ** C9: GetToken *)

Section TokenCycle.
Context (host : K8s.Host) (v : K8s.Vault).

Lemma GetToken_load_fails (tok : string) (e : error) :
  K8s.LoadToken host v = (tok, Some e) ->
  K8s.GetToken host v
  = if K8s.ReAuth v
    then bind (K8s.Authenticate host v) (fun r => Done (v, r))
    else Done (v, ("", Some (Wrapf e "failed to load token form: %s"
                               [FStr (K8s.TokenPath v)]))).
Proof. intros H. unfold K8s.GetToken. now rewrite H. Qed.

Lemma GetToken_renew_fails (tok : string) (s : option Secret) (e : error) :
  K8s.LoadToken host v = (tok, None) ->
  K8s.RenewSelf host (K8s.client (K8s.SetToken v tok)) (K8s.TTL v)
  = (s, Some e) ->
  K8s.GetToken host v
  = if K8s.ReAuth v
    then bind (K8s.Authenticate host (K8s.SetToken v tok))
              (fun r => Done (K8s.SetToken v tok, r))
    else Done (K8s.SetToken v tok,
               ("", Some (Wrapf e "failed to renew token" []))).
Proof.
  intros Hl Hr. unfold K8s.GetToken. rewrite Hl.
  change (K8s.TTL (K8s.SetToken v tok)) with (K8s.TTL v).
  change (K8s.ReAuth (K8s.SetToken v tok)) with (K8s.ReAuth v).
  now rewrite Hr.
Qed.

Lemma GetToken_renewed (tok : string) (s : option Secret) :
  K8s.LoadToken host v = (tok, None) ->
  K8s.RenewSelf host (K8s.client (K8s.SetToken v tok)) (K8s.TTL v)
  = (s, None) ->
  K8s.GetToken host v = Done (K8s.SetToken v tok, (tok, None)).
Proof.
  intros Hl Hr. unfold K8s.GetToken. rewrite Hl.
  change (K8s.TTL (K8s.SetToken v tok)) with (K8s.TTL v).
  now rewrite Hr.
Qed.

End TokenCycle.

(** C9, as the code has it. With the re-auth flag false, a token-load
    failure [e] makes [GetToken] return the empty token and [e] wrapped
    under "failed to load token form: %s" with the token path, and a
    self-renew failure [e] the empty token and [e] wrapped under
    "failed to renew token"; the cause of the returned error is the cause
    of [e]. With the flag true, either failure makes it return what a
    fresh [Authenticate] returns. When load and renew both succeed it
    returns the loaded token and a nil error. The client's token is the
    loaded one from the moment the load has succeeded. *)
Theorem C9_GetToken :
  forall (host : K8s.Host) (v : K8s.Vault),
    (forall (tok : string) (e : error),
        K8s.LoadToken host v = (tok, Some e) ->
        (K8s.ReAuth v = false ->
         exists e',
           K8s.GetToken host v = Done (v, ("", Some e'))
           /\ e' = Wrapf e "failed to load token form: %s"
                     [FStr (K8s.TokenPath v)]
           /\ Cause e' = Cause e)
        /\ (K8s.ReAuth v = true ->
            K8s.GetToken host v
            = bind (K8s.Authenticate host v) (fun r => Done (v, r))))
    /\ (forall (tok : string) (s : option Secret) (e : error),
        K8s.LoadToken host v = (tok, None) ->
        K8s.RenewSelf host (K8s.client (K8s.SetToken v tok)) (K8s.TTL v)
        = (s, Some e) ->
        (K8s.ReAuth v = false ->
         exists e',
           K8s.GetToken host v = Done (K8s.SetToken v tok, ("", Some e'))
           /\ e' = Wrapf e "failed to renew token" []
           /\ Cause e' = Cause e)
        /\ (K8s.ReAuth v = true ->
            K8s.GetToken host v
            = bind (K8s.Authenticate host (K8s.SetToken v tok))
                   (fun r => Done (K8s.SetToken v tok, r))))
    /\ (forall (tok : string) (s : option Secret),
        K8s.LoadToken host v = (tok, None) ->
        K8s.RenewSelf host (K8s.client (K8s.SetToken v tok)) (K8s.TTL v)
        = (s, None) ->
        K8s.GetToken host v = Done (K8s.SetToken v tok, (tok, None))).
Proof.
  intros host v. split; [|split].
  - intros tok e Hl. rewrite (GetToken_load_fails host v tok e Hl).
    split; intros ->; [|reflexivity].
    eexists. repeat split.
  - intros tok s e Hl Hr. rewrite (GetToken_renew_fails host v tok s e Hl Hr).
    split; intros ->; [|reflexivity].
    eexists. repeat split.
  - intros tok s Hl Hr. exact (GetToken_renewed host v tok s Hl Hr).
Qed.

Lemma C9_witness :
  (exists e',
      K8s.GetToken hostNoToken (testVault false)
      = Done (testVault false, ("", Some e'))
      /\ e' = Wrapf (Wrapf (External "open: no such file or directory")
                           "failed to load token" [])
                    "failed to load token form: %s" [FStr "/tmp/vault-token"]
      /\ Cause e' = External "open: no such file or directory")
  /\ K8s.GetToken hostLoginOnly (testVault true)
     = Done (testVault true, (rootToken, None))
  /\ (exists e',
      K8s.GetToken hostStale (testVault false)
      = Done (K8s.SetToken (testVault false) "stale", ("", Some e'))
      /\ e' = Wrapf (External "permission denied") "failed to renew token" []
      /\ Cause e' = External "permission denied")
  /\ K8s.GetToken hostStaleLogin (testVault true)
     = Done (K8s.SetToken (testVault true) "stale", (rootToken, None))
  /\ K8s.GetToken hostFresh (testVault false)
     = Done (K8s.SetToken (testVault false) "fresh", ("fresh", None)).
Proof.
  refine (conj _ (conj _ (conj _ (conj _ _)))).
  - apply (proj1 (proj1 (C9_GetToken hostNoToken (testVault false))
                    "" _ eq_refl) eq_refl).
  - apply (proj2 (proj1 (C9_GetToken hostLoginOnly (testVault true))
                    "" _ eq_refl) eq_refl).
  - apply (proj1 (proj1 (proj2 (C9_GetToken hostStale (testVault false)))
                    "stale" None _ eq_refl eq_refl) eq_refl).
  - apply (proj2 (proj1 (proj2 (C9_GetToken hostStaleLogin (testVault true)))
                    "stale" None _ eq_refl eq_refl) eq_refl).
  - apply (proj2 (proj2 (C9_GetToken hostFresh (testVault false)))
             "fresh" None eq_refl eq_refl).
Defined.

(** The claim as written fails: with the re-auth flag false the error
    [GetToken] returns is not the error of the load itself. *)
Lemma C9_counterexample :
  ~ (forall (host : K8s.Host) (v : K8s.Vault) (tok : string) (e : error),
        K8s.ReAuth v = false ->
        K8s.LoadToken host v = (tok, Some e) ->
        exists v', K8s.GetToken host v = Done (v', ("", Some e))).
Proof.
  intros H.
  destruct (H hostNoToken (testVault false) "" _ eq_refl eq_refl) as (v' & E).
  vm_compute in E. discriminate.
Qed.

(** ** C4: the legacy generic engine *)

Lemma matchingAre_skip (ty : string) (k : string) (m : MountOutput)
      (rest : list (string * MountOutput)) (p : string) :
  HasPrefix p k = false ->
  matchingAre ty ((k, m) :: rest) p -> matchingAre ty rest p.
Proof.
  intros Hk [(k' & m' & Hin & Hp) Hall]. split.
  - apply elem_of_cons in Hin as [E | Hin]; [|eauto].
    injection E as -> ->. congruence.
  - intros k2 m2 Hin2. apply Hall. now apply list_elem_of_further.
Qed.

Lemma KvFirst_generic (mounts : list (string * MountOutput)) (p : string) :
  matchingAre "generic" mounts p ->
  KvFirst.getVersionLoop mounts p = (1, None).
Proof.
  induction mounts as [|[k m] rest IH]; intros H.
  - destruct H as [(k & m & Hin & _) _]. now apply elem_of_nil in Hin.
  - simpl. destruct (HasPrefix p k) eqn:Hk; simpl.
    + rewrite (proj2 H k m (list_elem_of_here _ _) Hk). reflexivity.
    + apply IH. eapply matchingAre_skip; eauto.
Qed.

Lemma KvMount_generic (mounts : list (string * MountOutput)) (p : string) :
  matchingAre "generic" mounts p ->
  exists k m,
    (k, m) ∈ mounts /\ HasPrefix p k = true
    /\ KvMount.getVersionAndMountLoop mounts p = (1, k, None).
Proof.
  induction mounts as [|[k m] rest IH]; intros H.
  - destruct H as [(k & m & Hin & _) _]. now apply elem_of_nil in Hin.
  - simpl. destruct (HasPrefix p k) eqn:Hk; simpl.
    + rewrite (proj2 H k m (list_elem_of_here _ _) Hk).
      exists k, m. repeat split; [apply list_elem_of_here | assumption].
    + destruct IH as (k' & m' & Hin & Hp & E).
      { eapply matchingAre_skip; eauto. }
      exists k', m'. repeat split; [now apply list_elem_of_further | | ]; assumption.
Qed.

Lemma KvOld_generic (mounts : list (string * MountOutput)) (p : string) :
  matchingAre "generic" mounts p ->
  exists k m,
    (k, m) ∈ mounts /\ HasPrefix p k = true
    /\ KvOld.getVersionLoop mounts p
       = (0, Some (Errorf "matching mount %s for path %s is not of type kv"
                     [FStr k; FStr p])).
Proof.
  induction mounts as [|[k m] rest IH]; intros H.
  - destruct H as [(k & m & Hin & _) _]. now apply elem_of_nil in Hin.
  - simpl. destruct (HasPrefix p k) eqn:Hk; simpl.
    + rewrite (proj2 H k m (list_elem_of_here _ _) Hk).
      exists k, m. repeat split; [apply list_elem_of_here | assumption].
    + destruct IH as (k' & m' & Hin & Hp & E).
      { eapply matchingAre_skip; eauto. }
      exists k', m'. repeat split; [now apply list_elem_of_further | | ]; assumption.
Qed.

(** C4, as the code has it. For every mount table, in whatever order the
    loop visits it, in which the mounts whose prefix matches the path are
    of type [generic] (and there is one): [getVersion] of the first file of
    part_002 returns 1 and a nil error and [New] builds a revision-1 client
    for a path with a slash; [getVersionAndMount] of the second file
    returns 1, a matching mount prefix and a nil error; [getVersion] of
    src/kv/kv.go takes only type [kv] and returns 0 and the error made of
    "matching mount %s for path %s is not of type kv", so that [New] there
    builds no client. *)
Theorem C4_generic_mount :
  forall (W : Type) (svc : Service W) (w : W)
         (mounts : list (string * MountOutput)) (p : string),
    ListMounts svc w = (mounts, None) ->
    matchingAre "generic" mounts p ->
    KvFirst.getVersion svc w p = (1, None)
    /\ (ContainsRune p "/" = true ->
        KvFirst.New svc w p = (Some {| KvFirst.Version := 1 |}, None))
    /\ (exists k m,
        (k, m) ∈ mounts /\ HasPrefix p k = true
        /\ KvMount.getVersionAndMount svc w p = (1, k, None)
        /\ (HasPrefix p "/" = false -> ContainsRune p "/" = true ->
            KvMount.New svc w p
            = (Some {| KvMount.Version := 1; KvMount.Mount := k |}, None)))
    /\ (exists k m,
        (k, m) ∈ mounts /\ HasPrefix p k = true
        /\ KvOld.getVersion svc w p
           = (0, Some (Errorf "matching mount %s for path %s is not of type kv"
                         [FStr k; FStr p]))
        /\ KvOld.New svc w p
           = (None, Some (Errorf "matching mount %s for path %s is not of type kv"
                            [FStr k; FStr p]))).
Proof.
  intros W svc w mounts p Hm Hg.
  assert (H1 : KvFirst.getVersion svc w p = (1, None)).
  { unfold KvFirst.getVersion. rewrite Hm. now apply KvFirst_generic. }
  split; [exact H1|]. split; [|split].
  - intros Hs. unfold KvFirst.New. now rewrite Hs, H1.
  - destruct (KvMount_generic mounts p Hg) as (k & m & Hin & Hp & E).
    assert (H2 : KvMount.getVersionAndMount svc w p = (1, k, None)).
    { unfold KvMount.getVersionAndMount. now rewrite Hm. }
    exists k, m. repeat split; try assumption.
    intros Hr Hs. unfold KvMount.New. now rewrite Hr, Hs, H2.
  - destruct (KvOld_generic mounts p Hg) as (k & m & Hin & Hp & E).
    assert (H3 : KvOld.getVersion svc w p
                 = (0, Some (Errorf "matching mount %s for path %s is not of type kv"
                               [FStr k; FStr p]))).
    { unfold KvOld.getVersion. now rewrite Hm. }
    exists k, m. repeat split; try assumption.
    unfold KvOld.New. now rewrite H3.
Qed.

Lemma genericWorld_matching :
  matchingAre "generic" (Store.mountTable genericWorld) "secret/foo".
Proof.
  split.
  - exists "secret/", {| MountType := "generic"; Options := ∅ |}.
    split; [|reflexivity]. apply list_elem_of_further, list_elem_of_here.
  - intros k m Hin Hp. simpl in Hin.
    repeat (apply elem_of_cons in Hin as [E | Hin];
            [injection E as -> ->; first [reflexivity | discriminate]|]).
    now apply elem_of_nil in Hin.
Qed.

Lemma C4_witness :
  KvFirst.getVersion Store.service genericWorld "secret/foo" = (1, None)
  /\ KvFirst.New Store.service genericWorld "secret/foo"
     = (Some {| KvFirst.Version := 1 |}, None)
  /\ (exists k m,
       (k, m) ∈ Store.mountTable genericWorld
       /\ HasPrefix "secret/foo" k = true
       /\ KvMount.getVersionAndMount Store.service genericWorld "secret/foo"
          = (1, k, None)
       /\ KvMount.New Store.service genericWorld "secret/foo"
          = (Some {| KvMount.Version := 1; KvMount.Mount := k |}, None))
  /\ exists k m,
       (k, m) ∈ Store.mountTable genericWorld
       /\ HasPrefix "secret/foo" k = true
       /\ KvOld.getVersion Store.service genericWorld "secret/foo"
          = (0, Some (Errorf "matching mount %s for path %s is not of type kv"
                        [FStr k; FStr "secret/foo"]))
       /\ KvOld.New Store.service genericWorld "secret/foo"
          = (None, Some (Errorf "matching mount %s for path %s is not of type kv"
                           [FStr k; FStr "secret/foo"])).
Proof.
  pose proof (C4_generic_mount Store.World Store.service genericWorld
                (Store.mountTable genericWorld) "secret/foo" eq_refl
                genericWorld_matching) as (H1 & H2 & H3 & H4).
  refine (conj H1 (conj (H2 eq_refl) (conj _ H4))).
  destruct H3 as (k & m & Hin & Hp & E & HN).
  exists k, m. exact (conj Hin (conj Hp (conj E (HN eq_refl eq_refl)))).
Defined.

(** The claim as written fails on src/kv/kv.go: the mount matching the
    path is of type [generic] and [getVersion] returns an error. *)
Lemma C4_counterexample :
  matchingAre "generic" (Store.mountTable genericWorld) "secret/foo"
  /\ KvOld.getVersion Store.service genericWorld "secret/foo"
     = (0, Some (Errorf "matching mount %s for path %s is not of type kv"
                   [FStr "secret/"; FStr "secret/foo"]))
  /\ KvOld.getVersion Store.service genericWorld "secret/foo" <> (1, None).
Proof.
  split; [exact genericWorld_matching|]. split; [reflexivity | discriminate].
Qed.

(** ** C5: the declared version *)

Lemma byteVal_range (c : ascii) : 0 <= byteVal c < 256.
Proof.
  unfold byteVal. pose proof (N_ascii_bounded c). lia.
Qed.

Lemma atoiLoop_digits (s : string) (n r : Z) :
  atoiLoop s n = Some r -> allDigits s = true.
Proof.
  revert n. induction s as [|c s IH]; intros n; simpl; [reflexivity|].
  destruct (9 <? (byteVal c - 48) mod 256) eqn:E; [discriminate|].
  intros H. rewrite (IH _ H).
  apply Z.ltb_ge in E. pose proof (byteVal_range c) as B.
  unfold isDigit.
  assert (48 <= byteVal c <= 57) as [L U].
  { clear H IH. revert E. generalize (byteVal c) B. clear. intros b B E.
    Z.div_mod_to_equations. lia. }
  apply Z.leb_le in L, U. now rewrite L, U.
Qed.

Lemma parseUintLoop_spec (s : string) (n u : Z) (e : option numErrKind) :
  parseUintLoop s n = (u, e) ->
  match e with
  | None => allDigits s = true
  | Some ErrRange => u = maxUint64
  | Some ErrSyntax => True
  end.
Proof.
  revert n. induction s as [|c s IH]; intros n; simpl.
  - intros H. injection H as <- <-. reflexivity.
  - fold (isDigit c). destruct (isDigit c); simpl.
    + destruct (maxUint64 / 10 + 1 <=? n).
      { intros H. injection H as <- <-. reflexivity. }
      destruct (maxUint64 <? n * 10 + (byteVal c - 48)).
      { intros H. injection H as <- <-. reflexivity. }
      apply IH.
    + intros H. injection H as <- <-. exact I.
Qed.

Lemma ParseUint_spec (d : string) (u : Z) (e : option numErrKind) :
  ParseUint d = (u, e) ->
  match e with
  | None => negb (String.eqb d "") && allDigits d = true
  | Some ErrRange => u = maxUint64
  | Some ErrSyntax => True
  end.
Proof.
  destruct d as [|c d'].
  - intros H. injection H as <- <-. exact I.
  - intros H. apply parseUintLoop_spec in H.
    destruct e as [[|]|]; exact H.
Qed.

Lemma ParseInt_numeric (s : string) (i : Z) :
  ParseInt s = (i, None) -> numeric s = true.
Proof.
  destruct s as [|c s']; [discriminate|].
  unfold ParseInt, numeric.
  assert (Hsign : Ascii.eqb c "-" || Ascii.eqb c "+"
                  = Ascii.eqb c "+" || Ascii.eqb c "-") by apply orb_comm.
  rewrite Hsign.
  set (digits := if Ascii.eqb c "+" || Ascii.eqb c "-" then s' else String c s').
  destruct (ParseUint digits) as [u e] eqn:E.
  pose proof (ParseUint_spec digits u e E) as Hs.
  destruct e as [[|]|]; [discriminate| |].
  - subst u. destruct (Ascii.eqb c "-"); vm_compute; discriminate.
  - intros _. subst digits.
    destruct (Ascii.eqb c "+" || Ascii.eqb c "-"); [exact Hs|].
    rewrite eqb_String_empty in Hs. exact Hs.
Qed.

(** [Atoi] returns a nil error only on a decimal numeral. *)
Lemma Atoi_numeric (s : string) (n : Z) :
  Atoi s = (n, None) -> numeric s = true.
Proof.
  unfold Atoi.
  destruct ((0 <? String.length s)%nat && (String.length s <? 19)%nat).
  - destruct s as [|c s']; [discriminate|].
    unfold numeric.
    destruct (Ascii.eqb c "-" || Ascii.eqb c "+"); cbv beta iota zeta.
    + destruct s' as [|c' s'']; [discriminate|].
      change (true && (String.length (String c' s'') <? 1)%nat) with false.
      cbv iota.
      destruct (atoiLoop (String c' s'') 0) as [r|] eqn:E; [|discriminate].
      intros _. exact (atoiLoop_digits _ _ _ E).
    + change (false && (String.length (String c s') <? 1)%nat) with false.
      cbv iota.
      destruct (atoiLoop (String c s') 0) as [r|] eqn:E; [|discriminate].
      intros _. exact (atoiLoop_digits _ _ _ E).
  - destruct (ParseInt s) as [i e] eqn:E.
    destruct e; [discriminate|].
    intros _. exact (ParseInt_numeric s i E).
Qed.

Lemma missing_version_bad (m : MountOutput) :
  Options m !! "version" = None -> badVersion (option_of (Options m) "version").
Proof. intros H. unfold option_of. rewrite H. now left. Qed.

(** src/kv/kv.go: a nil error comes with revision 1 or 2 only. *)
Lemma KvOld_getVersion_success (mounts : list (string * MountOutput))
      (p : string) (v : Z) :
  KvOld.getVersionLoop mounts p = (v, None) -> v = 1 \/ v = 2.
Proof.
  induction mounts as [|[k m] rest IH]; simpl; [discriminate|].
  destruct (HasPrefix p k); simpl; [|exact IH].
  destruct (String.eqb (MountType m) "kv"); simpl; [|discriminate].
  destruct (Atoi (option_of (Options m) "version")) as [n [e|]];
    [discriminate|].
  destruct (n =? 1) eqn:E1; simpl.
  - intros H. injection H as <-. left. now apply Z.eqb_eq.
  - destruct (n =? 2) eqn:E2; [|discriminate].
    intros H. injection H as <-. right. now apply Z.eqb_eq.
Qed.

(** src/kv/kv.go: an unusable version on the matching mounts of type [kv]
    is an error. *)
Lemma KvOld_getVersion_bad (mounts : list (string * MountOutput)) (p : string) :
  matchingAre "kv" mounts p ->
  (forall k m, (k, m) ∈ mounts -> HasPrefix p k = true ->
               badVersion (option_of (Options m) "version")) ->
  exists v e, KvOld.getVersionLoop mounts p = (v, Some e).
Proof.
  induction mounts as [|[k m] rest IH]; intros H Hbad.
  - destruct H as [(k & m & Hin & _) _]. now apply elem_of_nil in Hin.
  - simpl. destruct (HasPrefix p k) eqn:Hk; simpl.
    + rewrite (proj2 H k m (list_elem_of_here _ _) Hk). simpl.
      specialize (Hbad k m (list_elem_of_here _ _) Hk).
      unfold badVersion in Hbad.
      destruct (Atoi (option_of (Options m) "version")) as [n [e|]] eqn:Ea;
        [eauto|].
      destruct Hbad as [Hn | [H1 H2]].
      * apply Atoi_numeric in Ea. congruence.
      * simpl in H1, H2.
        apply Z.eqb_neq in H1, H2. rewrite H1, H2. simpl. eauto.
    + apply IH; [eapply matchingAre_skip; eauto|].
      intros k' m' Hin. apply Hbad. now apply list_elem_of_further.
Qed.

(** C5 at a mount of type [kv] that declares version 3: both files of
    part_002 return 3 with a nil error and [New] builds a client of
    revision 3, where src/kv/kv.go returns the error made of
    "unknown version: %d" and 3. *)
Theorem C5_version_out_of_range :
  KvFirst.getVersion Store.service version3World "secret/foo" = (3, None)
  /\ KvFirst.New Store.service version3World "secret/foo"
     = (Some {| KvFirst.Version := 3 |}, None)
  /\ KvMount.getVersionAndMount Store.service version3World "secret/foo"
     = (3, "secret/", None)
  /\ KvMount.New Store.service version3World "secret/foo"
     = (Some {| KvMount.Version := 3; KvMount.Mount := "secret/" |}, None)
  /\ KvOld.getVersion Store.service version3World "secret/foo"
     = (3, Some (Errorf "unknown version: %d" [FInt 3])).
Proof. repeat split; vm_compute; reflexivity. Qed.

(** ** C2: rewriting a rewritten path *)

(** First file of part_002: a path whose second segment is the prefix is
    returned as it is. *)
Lemma KvFirst_FixPath_unchanged (p prefix : string) :
  Split p "/" !! 1%nat = Some prefix -> KvFirst.FixPath p prefix = Done p.
Proof.
  intros H. unfold KvFirst.FixPath, index. rewrite H. cbn [bind].
  now rewrite String.eqb_refl.
Qed.

(** Second file of part_002: a path whose first segment after the mount is
    the prefix is returned as it is. *)
Lemma KvMount_FixPath_unchanged (path mount prefix : string) :
  head (Split (TrimPrefix path (KvMount.withSlash mount)) "/") = Some prefix ->
  KvMount.FixPath path mount prefix = Done path.
Proof.
  intros H. unfold KvMount.FixPath.
  destruct (Split (TrimPrefix path (KvMount.withSlash mount)) "/")
    as [|piece more]; [discriminate|].
  injection H as ->. simpl. now rewrite String.eqb_refl.
Qed.

Lemma Split_head_app_sep (a b : string) :
  noSlash a -> head (Split (a +:+ String "/" b) "/") = Some a.
Proof. intros H. now rewrite Split_app_sep, (Split_noSlash a H). Qed.

(** Second file of part_002: rewriting twice is rewriting once, for a
    prefix that is one segment. *)
Lemma KvMount_FixPath_idempotent (path mount prefix out : string) :
  noSlash prefix ->
  KvMount.FixPath path mount prefix = Done out ->
  KvMount.FixPath out mount prefix = Done out.
Proof.
  intros Hp. unfold KvMount.FixPath at 1.
  destruct (Split (TrimPrefix path (KvMount.withSlash mount)) "/")
    as [|piece more] eqn:E.
  { destruct (Split_cons (TrimPrefix path (KvMount.withSlash mount)) "/")
      as (? & ? & E'). congruence. }
  simpl. destruct (String.eqb_spec piece prefix) as [->|Hne].
  - intros H. injection H as <-.
    apply KvMount_FixPath_unchanged. now rewrite E.
  - intros H. injection H as <-.
    apply KvMount_FixPath_unchanged.
    rewrite TrimPrefix_app. simpl. now apply Split_head_app_sep.
Qed.

(** C2 on src/kv/kv.go: [fixPath] has no test for a prefix that is already
    there; a path that holds [data] after its first segment gets a second
    [data], and rewriting the result of a rewrite changes it again. The
    same path is left as it is by the [FixPath] of both files of
    part_002. *)
Theorem C2_fixPath_not_idempotent :
  KvOld.fixPath "secret/data/foo" "data" = "secret/data/data/foo"
  /\ KvOld.fixPath "secret/foo" "data" = "secret/data/foo"
  /\ KvOld.fixPath (KvOld.fixPath "secret/foo" "data") "data"
     <> KvOld.fixPath "secret/foo" "data"
  /\ KvFirst.FixPath "secret/data/foo" "data" = Done "secret/data/foo"
  /\ KvMount.FixPath "secret/data/foo" "secret" "data" = Done "secret/data/foo".
Proof. repeat split; try reflexivity. vm_compute. discriminate. Qed.

(** * Further properties of the code *)

(** ** Paths without a slash *)

Lemma KvFirst_FixPath_panics_iff (p prefix : string) :
  panics (KvFirst.FixPath p prefix) <-> ContainsRune p "/" = false.
Proof.
  split.
  - intros H. destruct (ContainsRune p "/") eqn:E; [|reflexivity].
    destruct (KvFirst_FixPath_total p prefix E) as (p' & Hp).
    rewrite Hp in H. destruct H.
  - intros H. unfold KvFirst.FixPath. rewrite (Split_noSlash p H). exact I.
Qed.

Lemma KvMount_FixPath_no_panic (p mount prefix : string) :
  ~ panics (KvMount.FixPath p mount prefix).
Proof.
  destruct (KvMount_FixPath_total p mount prefix) as (p' & ->). intros [].
Qed.

(** The first file of part_002 indexes the second segment of the path:
    [FixPath] panics exactly on the paths without a slash, and with it
    [Read], [Write] and [List] of a revision-2 client, before the service
    is called; on any other revision they send the path as it is and
    [Write] does not panic. The mount-aware [FixPath] never panics. *)
Theorem KvFirst_slashless_path_panics :
  forall (p prefix : string),
    (panics (KvFirst.FixPath p prefix) <-> ContainsRune p "/" = false)
    /\ (forall (W : Type) (svc : Service W) (c : KvFirst.Client) (w : W)
               (data : fields),
        KvFirst.Version c = 2 -> ContainsRune p "/" = false ->
        panics (KvFirst.Read svc c w p)
        /\ panics (KvFirst.Write svc c w p data)
        /\ panics (KvFirst.List svc c w p))
    /\ (forall (W : Type) (svc : Service W) (c : KvFirst.Client) (w : W)
               (data : fields),
        KvFirst.Version c <> 2 ->
        ~ panics (KvFirst.Write svc c w p data))
    /\ (forall mount, ~ panics (KvMount.FixPath p mount prefix)).
Proof.
  intros p prefix. split; [apply KvFirst_FixPath_panics_iff|].
  split; [|split; [|intros mount; apply KvMount_FixPath_no_panic]].
  - intros W svc c w data Hv Hp.
    unfold KvFirst.Read, KvFirst.Write, KvFirst.List. rewrite Hv.
    cbn [Z.eqb Pos.eqb].
    pose proof (proj2 (KvFirst_FixPath_panics_iff p ReadPrefix) Hp) as P1.
    pose proof (proj2 (KvFirst_FixPath_panics_iff p ListPrefix) Hp) as P2.
    unfold WritePrefix.
    destruct (KvFirst.FixPath p ReadPrefix); [destruct P1|].
    destruct (KvFirst.FixPath p ListPrefix); [destruct P2|].
    repeat split.
  - intros W svc c w data Hv. unfold KvFirst.Write.
    apply Z.eqb_neq in Hv. rewrite Hv. cbn [bind].
    destruct (LogicalWrite svc w p data) as [w' [s e]]. intros [].
Qed.

Lemma KvFirst_slashless_path_panics_witness :
  panics (KvFirst.Read Store.service {| KvFirst.Version := 2 |} devWorld "secret")
  /\ panics (KvFirst.Write Store.service {| KvFirst.Version := 2 |} devWorld
               "secret" None)
  /\ panics (KvFirst.List Store.service {| KvFirst.Version := 2 |} devWorld
               "secret")
  /\ ~ panics (KvFirst.Write Store.service {| KvFirst.Version := 1 |} devWorld
                 "secret" None).
Proof.
  pose proof (KvFirst_slashless_path_panics "secret" "data") as (_ & H2 & H3 & _).
  refine (conj _ (conj _ (conj _ _))).
  - exact (proj1 (H2 _ Store.service {| KvFirst.Version := 2 |} devWorld None
                     eq_refl eq_refl)).
  - exact (proj1 (proj2 (H2 _ Store.service {| KvFirst.Version := 2 |} devWorld
                            None eq_refl eq_refl))).
  - exact (proj2 (proj2 (H2 _ Store.service {| KvFirst.Version := 2 |} devWorld
                            None eq_refl eq_refl))).
  - apply (H3 _ Store.service {| KvFirst.Version := 1 |} devWorld None).
    discriminate.
Defined.

(** ** The insertion after the first segment *)

Lemma Join_cons_cons (e e' : string) (rest : list string) :
  Join (e :: e' :: rest) "/" = e +:+ String "/" (Join (e' :: rest) "/").
Proof. reflexivity. Qed.

Lemma KvOld_fixPath_plain (e0 prefix : string) (rest : list string) :
  plainSeg e0 -> okElem prefix -> Forall okElem rest ->
  KvOld.fixPath (Join (e0 :: rest) "/") prefix
  = Join (nonEmpty (e0 :: prefix :: rest)) "/".
Proof.
  intros He0 Hp Hrest. unfold KvOld.fixPath.
  rewrite Split_Join; [|congruence | now apply noSlash_elems].
  change (take 1 (e0 :: rest) ++ ([prefix] ++ drop 1 (e0 :: rest)))%list
    with (e0 :: prefix :: rest).
  apply pathJoin_ok; [assumption | now constructor].
Qed.

Lemma KvFirst_FixPath_plain (e0 e1 prefix : string) (rest : list string) :
  plainSeg e0 -> okElem prefix -> Forall okElem (e1 :: rest) ->
  KvFirst.FixPath (Join (e0 :: e1 :: rest) "/") prefix
  = Done (if String.eqb e1 prefix then Join (e0 :: e1 :: rest) "/"
          else Join (nonEmpty (e0 :: prefix :: e1 :: rest)) "/").
Proof.
  intros He0 Hp Hrest. unfold KvFirst.FixPath.
  rewrite Split_Join; [|congruence | now apply noSlash_elems].
  change (index (e0 :: e1 :: rest) 1) with (Done e1). cbn [bind].
  destruct (String.eqb e1 prefix); [reflexivity|].
  change (take 1 (e0 :: e1 :: rest)
          ++ ([prefix] ++ drop 1 (e0 :: e1 :: rest)))%list
    with (e0 :: prefix :: e1 :: rest).
  f_equal. apply pathJoin_ok; [assumption | now constructor].
Qed.

(** The rewrite after the first segment. On a path of plain segments
    [fixPath] of src/kv/kv.go returns the first segment, the prefix, then
    the other segments, whatever the second segment is; [FixPath] of the
    first file of part_002 does the same unless the second segment is the
    prefix already, and then returns the path. Empty elements of the path
    (a closing or doubled slash) are dropped from the result. *)
Theorem first_segment_insertion :
  forall (e0 prefix : string) (rest : list string),
    plainSeg e0 -> plainSeg prefix ->
    (Forall okElem rest ->
     KvOld.fixPath (Join (e0 :: rest) "/") prefix
     = Join (e0 :: prefix :: nonEmpty rest) "/")
    /\ (forall e1 rest',
        rest = e1 :: rest' -> Forall okElem rest ->
        KvFirst.FixPath (Join (e0 :: rest) "/") prefix
        = Done (if String.eqb e1 prefix then Join (e0 :: rest) "/"
                else Join (e0 :: prefix :: nonEmpty rest) "/")).
Proof.
  intros e0 prefix rest He0 Hp.
  assert (Hne : forall l, nonEmpty (e0 :: prefix :: l)
                          = e0 :: prefix :: nonEmpty l).
  { intros l. unfold nonEmpty. cbn [List.filter].
    destruct (String.eqb_spec e0 ""); [now destruct He0|].
    destruct (String.eqb_spec prefix ""); [now destruct Hp|]. reflexivity. }
  split.
  - intros Hrest. rewrite <- Hne. apply KvOld_fixPath_plain; try assumption.
    apply Hp.
  - intros e1 rest' -> Hrest. rewrite <- Hne.
    apply KvFirst_FixPath_plain; try assumption. apply Hp.
Qed.

Lemma first_segment_insertion_witness :
  KvOld.fixPath (Join ["secret"; "test"; "first"; ""] "/") "data"
  = "secret/data/test/first"
  /\ KvFirst.FixPath (Join ["secret"; "metadata"; "x"] "/") "metadata"
     = Done "secret/metadata/x"
  /\ KvFirst.FixPath (Join ["secret"; "test"; ""; "x"] "/") "metadata"
     = Done "secret/metadata/test/x".
Proof.
  assert (Ps : plainSeg "secret") by (repeat split; discriminate).
  assert (Pd : plainSeg "data") by (repeat split; discriminate).
  assert (Pm : plainSeg "metadata") by (repeat split; discriminate).
  refine (conj _ (conj _ _)).
  - apply (proj1 (first_segment_insertion "secret" "data" ["test"; "first"; ""]
                    Ps Pd)).
    repeat constructor; discriminate.
  - apply (proj2 (first_segment_insertion "secret" "metadata" ["metadata"; "x"]
                    Ps Pm) "metadata" ["x"] eq_refl).
    repeat constructor; discriminate.
  - apply (proj2 (first_segment_insertion "secret" "metadata" ["test"; ""; "x"]
                    Ps Pm) "test" [""; "x"] eq_refl).
    repeat constructor; discriminate.
Defined.

(** ** The two strategies on a mount of one segment *)

Lemma Join_mount_rest (m0 s : string) (ss : list string) :
  Join (m0 :: s :: ss) "/" = (m0 +:+ "/") +:+ Join (s :: ss) "/".
Proof. rewrite append_assoc. reflexivity. Qed.

Lemma dropBytes_noSlash (n : nat) (m : string) :
  noSlash m -> noSlash (dropBytes n m).
Proof.
  unfold noSlash. revert m. induction n as [|n IH]; intros m H; [exact H|].
  destruct m as [|c m]; [reflexivity|]. simpl in H |- *.
  destruct (Ascii.eqb c "/"); [discriminate|]. now apply IH.
Qed.

Lemma withSlash_noSlash (m : string) :
  noSlash m -> KvMount.withSlash m = m +:+ "/".
Proof.
  intros H. unfold KvMount.withSlash, HasSuffix.
  destruct (String.eqb_spec
              (dropBytes (String.length m - String.length "/") m) "/")
    as [E|_].
  - pose proof (dropBytes_noSlash (String.length m - String.length "/") m H)
      as N. rewrite E in N. discriminate.
  - now rewrite andb_false_r.
Qed.

Lemma FixPath_strategies_agree_closed (m0 prefix s : string) (ss : list string) :
  plainSeg m0 -> plainSeg prefix -> Forall plainSeg (s :: ss) ->
  KvMount.FixPath (Join (m0 :: s :: ss) "/") (m0 +:+ "/") prefix
  = KvFirst.FixPath (Join (m0 :: s :: ss) "/") prefix.
Proof.
  intros Hm Hp Hs.
  rewrite (KvFirst_FixPath_plain m0 s prefix ss Hm (proj1 Hp)
             (plainSeg_okElem_all _ Hs)).
  assert (Hhd : head (Split (Join (s :: ss) "/") "/") = Some s).
  { rewrite Split_Join; [reflexivity | congruence |].
    inversion Hs as [|? ? H1 H2]; subst.
    apply noSlash_elems; [assumption | now apply plainSeg_okElem_all]. }
  destruct (String.eqb_spec s prefix) as [->|Hne].
  - apply KvMount_FixPath_unchanged.
    rewrite withSlash_closed, Join_mount_rest, TrimPrefix_app. exact Hhd.
  - assert (K := KvMount_FixPath_under (m0 +:+ "/") prefix (Join (s :: ss) "/")).
    rewrite withSlash_closed, <- Join_mount_rest in K.
    rewrite K by (rewrite Hhd; congruence).
    rewrite (nonEmpty_plain (m0 :: prefix :: s :: ss))
      by (constructor; [assumption | constructor; assumption]).
    f_equal. rewrite !append_assoc. reflexivity.
Qed.

(** On a mount that is one plain segment, given with or without its
    closing slash, and a path of plain segments under it, the mount-aware
    [FixPath] and the [FixPath] that inserts after the first segment return
    the same path. *)
Theorem FixPath_strategies_agree :
  forall (m0 prefix : string) (segs : list string),
    plainSeg m0 -> plainSeg prefix -> segs <> [] -> Forall plainSeg segs ->
    KvMount.FixPath (Join (m0 :: segs) "/") (m0 +:+ "/") prefix
    = KvFirst.FixPath (Join (m0 :: segs) "/") prefix
    /\ KvMount.FixPath (Join (m0 :: segs) "/") m0 prefix
       = KvFirst.FixPath (Join (m0 :: segs) "/") prefix.
Proof.
  intros m0 prefix segs Hm Hp Hne Hs.
  destruct segs as [|s ss]; [congruence|].
  pose proof (FixPath_strategies_agree_closed m0 prefix s ss Hm Hp Hs) as H.
  split; [exact H|].
  rewrite <- H. unfold KvMount.FixPath.
  rewrite withSlash_closed, (withSlash_noSlash m0); [reflexivity|].
  apply Hm.
Qed.

Lemma FixPath_strategies_agree_witness :
  KvMount.FixPath (Join ["secret"; "test"; "first"] "/") ("secret" +:+ "/") "data"
  = KvFirst.FixPath (Join ["secret"; "test"; "first"] "/") "data"
  /\ KvMount.FixPath (Join ["secret"; "test"; "first"] "/") "secret" "data"
     = KvFirst.FixPath (Join ["secret"; "test"; "first"] "/") "data".
Proof.
  apply (FixPath_strategies_agree "secret" "data" ["test"; "first"]).
  - repeat split; discriminate.
  - repeat split; discriminate.
  - discriminate.
  - repeat constructor; discriminate.
Defined.

(** ** Paths that are rewritten already, mount-aware file *)

(** In the second file of part_002, for a prefix of one segment: the path
    [FixPath] returns is returned unchanged by [FixPath]; so on a
    revision-2 client [Read], [Write] and [List] of the rewritten path do
    what they do on the path the caller would have given. *)
Theorem KvMount_rewritten_path_equivalent :
  (forall (path mount prefix out : string),
      noSlash prefix ->
      KvMount.FixPath path mount prefix = Done out ->
      KvMount.FixPath out mount prefix = Done out)
  /\ (forall (W : Type) (svc : Service W) (c : KvMount.Client) (w : W)
             (p out : string) (data : fields),
      KvMount.Version c = 2 ->
      (KvMount.FixPath p (KvMount.Mount c) ReadPrefix = Done out ->
       KvMount.Read svc c w out = KvMount.Read svc c w p
       /\ KvMount.Write svc c w out data = KvMount.Write svc c w p data)
      /\ (KvMount.FixPath p (KvMount.Mount c) ListPrefix = Done out ->
          KvMount.List svc c w out = KvMount.List svc c w p)).
Proof.
  split; [exact KvMount_FixPath_idempotent|].
  intros W svc c w p out data Hv. split.
  - intros Hp.
    pose proof (KvMount_FixPath_idempotent p (KvMount.Mount c) ReadPrefix out
                  eq_refl Hp) as Hi.
    unfold KvMount.Read, KvMount.Write, WritePrefix. rewrite Hv.
    cbn [Z.eqb Pos.eqb]. rewrite Hp, Hi. split; reflexivity.
  - intros Hp.
    pose proof (KvMount_FixPath_idempotent p (KvMount.Mount c) ListPrefix out
                  eq_refl Hp) as Hi.
    unfold KvMount.List. rewrite Hv.
    cbn [Z.eqb Pos.eqb]. rewrite Hp, Hi. reflexivity.
Qed.

Lemma KvMount_rewritten_path_equivalent_witness :
  KvMount.FixPath "secret/foo/kv/data/bar" "secret/foo/kv" "data"
  = Done "secret/foo/kv/data/bar"
  /\ KvMount.Read Store.service
       {| KvMount.Version := 2; KvMount.Mount := "secret/" |} nilBodyWorld
       "secret/data/test"
     = KvMount.Read Store.service
         {| KvMount.Version := 2; KvMount.Mount := "secret/" |} nilBodyWorld
         "secret/test"
  /\ KvMount.List Store.service
       {| KvMount.Version := 2; KvMount.Mount := "secret/" |} nilBodyWorld
       "secret/metadata/test"
     = KvMount.List Store.service
         {| KvMount.Version := 2; KvMount.Mount := "secret/" |} nilBodyWorld
         "secret/test".
Proof.
  destruct KvMount_rewritten_path_equivalent as [H1 H2].
  refine (conj _ (conj _ _)).
  - apply (H1 "secret/foo/kv/bar" "secret/foo/kv" "data"); reflexivity.
  - apply (proj1 (H2 _ Store.service
                     {| KvMount.Version := 2; KvMount.Mount := "secret/" |}
                     nilBodyWorld "secret/test" "secret/data/test" None
                     eq_refl)).
    reflexivity.
  - apply (proj2 (H2 _ Store.service
                     {| KvMount.Version := 2; KvMount.Mount := "secret/" |}
                     nilBodyWorld "secret/test" "secret/metadata/test" None
                     eq_refl)).
    reflexivity.
Defined.

(** ** The mount table *)

Lemma firstMatch_Some (mounts : list (string * MountOutput)) (p k : string)
      (m : MountOutput) :
  firstMatch mounts p = Some (k, m) -> (k, m) ∈ mounts /\ HasPrefix p k = true.
Proof.
  induction mounts as [|[k' m'] rest IH]; simpl; [discriminate|].
  destruct (HasPrefix p k') eqn:Hk.
  - intros H. injection H as -> ->. split; [apply list_elem_of_here | exact Hk].
  - intros H. destruct (IH H) as [Hin Hp].
    split; [now apply list_elem_of_further | exact Hp].
Qed.

Lemma firstMatch_None (mounts : list (string * MountOutput)) (p : string) :
  firstMatch mounts p = None <-> noMatch mounts p.
Proof.
  unfold noMatch. induction mounts as [|[k' m'] rest IH]; simpl.
  - split; [|reflexivity]. intros _ k m Hin. now apply elem_of_nil in Hin.
  - destruct (HasPrefix p k') eqn:Hk.
    + split; [discriminate|]. intros H.
      rewrite (H k' m' (list_elem_of_here _ _)) in Hk. discriminate.
    + rewrite IH. split.
      * intros H k m Hin. apply elem_of_cons in Hin as [E|Hin]; [|eauto].
        now injection E as -> ->.
      * intros H k m Hin. apply (H k m). now apply list_elem_of_further.
Qed.

Lemma firstMatch_found (mounts : list (string * MountOutput)) (p k : string)
      (m : MountOutput) :
  (k, m) ∈ mounts -> HasPrefix p k = true ->
  exists k' m', firstMatch mounts p = Some (k', m').
Proof.
  intros Hin Hp. destruct (firstMatch mounts p) as [[k' m']|] eqn:E; [eauto|].
  apply firstMatch_None in E. rewrite (E k m Hin) in Hp. discriminate.
Qed.

(** Each loop looks at the first matching entry and at nothing else. *)
Lemma KvOld_loop_firstMatch (mounts : list (string * MountOutput)) (p : string) :
  KvOld.getVersionLoop mounts p
  = match firstMatch mounts p with
    | Some e => KvOld.getVersionLoop [e] p
    | None => (0, Some (Errorf "failed to get mount for path: %s" [FStr p]))
    end.
Proof.
  induction mounts as [|[k m] rest IH]; [reflexivity|].
  simpl. destruct (HasPrefix p k) eqn:Hk; simpl; [now rewrite Hk | exact IH].
Qed.

Lemma KvFirst_loop_firstMatch (mounts : list (string * MountOutput)) (p : string) :
  KvFirst.getVersionLoop mounts p
  = match firstMatch mounts p with
    | Some e => KvFirst.getVersionLoop [e] p
    | None => (0, Some (Errorf "failed to get mount for path: %s" [FStr p]))
    end.
Proof.
  induction mounts as [|[k m] rest IH]; [reflexivity|].
  simpl. destruct (HasPrefix p k) eqn:Hk; simpl; [now rewrite Hk | exact IH].
Qed.

Lemma KvMount_loop_firstMatch (mounts : list (string * MountOutput)) (p : string) :
  KvMount.getVersionAndMountLoop mounts p
  = match firstMatch mounts p with
    | Some e => KvMount.getVersionAndMountLoop [e] p
    | None =>
        (0, "", Some (Errorf "failed to get mount for path: %s" [FStr p]))
    end.
Proof.
  induction mounts as [|[k m] rest IH]; [reflexivity|].
  simpl. destruct (HasPrefix p k) eqn:Hk; simpl; [now rewrite Hk | exact IH].
Qed.

(** When no prefix of the mount table matches the path, version detection
    returns the error made of "failed to get mount for path: %s" and the
    path in all three files, and [New] returns that error and no client
    (for a path that passes the checks [New] makes first). *)
Theorem no_mount_found :
  forall (W : Type) (svc : Service W) (w : W)
         (mounts : list (string * MountOutput)) (p : string),
    ListMounts svc w = (mounts, None) ->
    noMatch mounts p ->
    let notFound := Errorf "failed to get mount for path: %s" [FStr p] in
    KvOld.getVersion svc w p = (0, Some notFound)
    /\ KvOld.New svc w p = (None, Some notFound)
    /\ KvFirst.getVersion svc w p = (0, Some notFound)
    /\ (ContainsRune p "/" = true ->
        KvFirst.New svc w p = (None, Some notFound))
    /\ KvMount.getVersionAndMount svc w p = (0, "", Some notFound)
    /\ (HasPrefix p "/" = false -> ContainsRune p "/" = true ->
        KvMount.New svc w p = (None, Some notFound)).
Proof.
  intros W svc w mounts p Hm Hno notFound.
  apply firstMatch_None in Hno.
  assert (H1 : KvOld.getVersion svc w p = (0, Some notFound)).
  { unfold KvOld.getVersion. now rewrite Hm, KvOld_loop_firstMatch, Hno. }
  assert (H2 : KvFirst.getVersion svc w p = (0, Some notFound)).
  { unfold KvFirst.getVersion. now rewrite Hm, KvFirst_loop_firstMatch, Hno. }
  assert (H3 : KvMount.getVersionAndMount svc w p = (0, "", Some notFound)).
  { unfold KvMount.getVersionAndMount.
    now rewrite Hm, KvMount_loop_firstMatch, Hno. }
  refine (conj H1 (conj _ (conj H2 (conj _ (conj H3 _))))).
  - unfold KvOld.New. now rewrite H1.
  - intros Hs. unfold KvFirst.New. now rewrite Hs, H2.
  - intros Hr Hs. unfold KvMount.New. now rewrite Hr, Hs, H3.
Qed.

Lemma devMounts_noMatch : noMatch devMounts "notexist/".
Proof.
  intros k m Hin. unfold devMounts in Hin.
  repeat (apply elem_of_cons in Hin as [E | Hin];
          [injection E as -> ->; reflexivity|]).
  now apply elem_of_nil in Hin.
Qed.

Lemma no_mount_found_witness :
  KvOld.New Store.service devWorld "notexist/"
  = (None, Some (Errorf "failed to get mount for path: %s" [FStr "notexist/"]))
  /\ KvFirst.New Store.service devWorld "notexist/"
     = (None, Some (Errorf "failed to get mount for path: %s" [FStr "notexist/"]))
  /\ KvMount.New Store.service devWorld "notexist/"
     = (None, Some (Errorf "failed to get mount for path: %s" [FStr "notexist/"])).
Proof.
  pose proof (no_mount_found Store.World Store.service devWorld devMounts
                "notexist/" eq_refl devMounts_noMatch)
    as (_ & H1 & _ & H2 & _ & H3).
  exact (conj H1 (conj (H2 eq_refl) (H3 eq_refl eq_refl))).
Defined.

(** When the mounts matching the path are of a type other than [kv] and
    [generic], version detection returns the error made of
    "matching mount %s for path %s is not of type kv", a matching prefix
    and the path, in both files of part_002; src/kv/kv.go returns it for
    every type other than [kv]. *)
Theorem unsupported_mount_type :
  forall (ty : string) (mounts : list (string * MountOutput)) (p : string),
    matchingAre ty mounts p -> ty <> "kv" ->
    exists k m,
      (k, m) ∈ mounts /\ HasPrefix p k = true
      /\ let notKv := Errorf "matching mount %s for path %s is not of type kv"
                        [FStr k; FStr p] in
         KvOld.getVersionLoop mounts p = (0, Some notKv)
         /\ (ty <> "generic" ->
             KvFirst.getVersionLoop mounts p = (0, Some notKv)
             /\ KvMount.getVersionAndMountLoop mounts p = (0, "", Some notKv)).
Proof.
  intros ty mounts p [(k0 & m0 & Hin0 & Hp0) Hall] Hkv.
  destruct (firstMatch_found mounts p k0 m0 Hin0 Hp0) as (k & m & E).
  destruct (firstMatch_Some mounts p k m E) as [Hin Hp].
  exists k, m. split; [exact Hin|]. split; [exact Hp|].
  rewrite KvOld_loop_firstMatch, KvFirst_loop_firstMatch,
    KvMount_loop_firstMatch, E.
  simpl. rewrite Hp, (Hall k m Hin Hp). simpl.
  destruct (String.eqb_spec ty "kv") as [|_]; [congruence|]. simpl.
  split; [reflexivity|]. intros Hg.
  destruct (String.eqb_spec ty "generic") as [|_]; [congruence|].
  split; reflexivity.
Qed.

Lemma devMounts_cubbyhole : matchingAre "cubbyhole" devMounts "cubbyhole/".
Proof.
  split.
  - exists "cubbyhole/", {| MountType := "cubbyhole"; Options := ∅ |}.
    split; [apply list_elem_of_here | reflexivity].
  - intros k m Hin Hp. unfold devMounts in Hin.
    repeat (apply elem_of_cons in Hin as [E | Hin];
            [injection E as -> ->; first [reflexivity | discriminate]|]).
    now apply elem_of_nil in Hin.
Qed.

Lemma unsupported_mount_type_witness :
  exists k m,
    (k, m) ∈ devMounts /\ HasPrefix "cubbyhole/" k = true
    /\ KvOld.getVersionLoop devMounts "cubbyhole/"
       = (0, Some (Errorf "matching mount %s for path %s is not of type kv"
                     [FStr k; FStr "cubbyhole/"]))
    /\ KvFirst.getVersionLoop devMounts "cubbyhole/"
       = (0, Some (Errorf "matching mount %s for path %s is not of type kv"
                     [FStr k; FStr "cubbyhole/"]))
    /\ KvMount.getVersionAndMountLoop devMounts "cubbyhole/"
       = (0, "", Some (Errorf "matching mount %s for path %s is not of type kv"
                         [FStr k; FStr "cubbyhole/"])).
Proof.
  destruct (unsupported_mount_type "cubbyhole" devMounts "cubbyhole/"
              devMounts_cubbyhole) as (k & m & Hin & Hp & H1 & H2);
    [discriminate|].
  exists k, m.
  destruct H2 as [H2 H3]; [discriminate|].
  exact (conj Hin (conj Hp (conj H1 (conj H2 H3)))).
Defined.

Lemma Atoi_error_form (s : string) (n : Z) (e : error) :
  Atoi s = (n, Some e) -> exists kind, e = NumError "Atoi" s kind.
Proof.
  unfold Atoi.
  destruct ((0 <? String.length s)%nat && (String.length s <? 19)%nat).
  - destruct s as [|c s']; [intros H; injection H as <- <-; eauto|].
    destruct (_ && _); [intros H; injection H as <- <-; eauto|].
    destruct (atoiLoop _ 0); [discriminate|].
    intros H; injection H as <- <-; eauto.
  - destruct (ParseInt s) as [i [kind|]]; simpl; [|discriminate].
    intros H; injection H as <- <-; eauto.
Qed.

(** When the mounts matching the path are of type [kv] and their version
    option is not a decimal numeral (a missing option reads as the empty
    string), version detection returns the [NumError] of [strconv.Atoi]
    on that option in all three files, and no revision. *)
Theorem version_not_a_number :
  forall (mounts : list (string * MountOutput)) (p : string),
    matchingAre "kv" mounts p ->
    (forall k m, (k, m) ∈ mounts -> HasPrefix p k = true ->
                 numeric (option_of (Options m) "version") = false) ->
    exists k m kind n,
      (k, m) ∈ mounts /\ HasPrefix p k = true
      /\ let e := NumError "Atoi" (option_of (Options m) "version") kind in
         KvOld.getVersionLoop mounts p = (n, Some e)
         /\ KvFirst.getVersionLoop mounts p = (n, Some e)
         /\ KvMount.getVersionAndMountLoop mounts p = (0, "", Some e).
Proof.
  intros mounts p [(k0 & m0 & Hin0 & Hp0) Hall] Hbad.
  destruct (firstMatch_found mounts p k0 m0 Hin0 Hp0) as (k & m & E).
  destruct (firstMatch_Some mounts p k m E) as [Hin Hp].
  destruct (Atoi (option_of (Options m) "version")) as [n [e|]] eqn:Ea.
  - destruct (Atoi_error_form _ _ _ Ea) as (kind & ->).
    exists k, m, kind, n. split; [exact Hin|]. split; [exact Hp|].
    rewrite KvOld_loop_firstMatch, KvFirst_loop_firstMatch,
      KvMount_loop_firstMatch, E.
    simpl. rewrite Hp, (Hall k m Hin Hp). simpl. rewrite Ea.
    repeat split.
  - apply Atoi_numeric in Ea. rewrite (Hbad k m Hin Hp) in Ea. discriminate.
Qed.

Lemma version_not_a_number_witness :
  exists k m kind n,
    (k, m) ∈ Store.mountTable wordVersionWorld
    /\ HasPrefix "secret/foo" k = true
    /\ KvOld.getVersionLoop (Store.mountTable wordVersionWorld) "secret/foo"
       = (n, Some (NumError "Atoi" (option_of (Options m) "version") kind))
    /\ KvFirst.getVersionLoop (Store.mountTable wordVersionWorld) "secret/foo"
       = (n, Some (NumError "Atoi" (option_of (Options m) "version") kind))
    /\ KvMount.getVersionAndMountLoop (Store.mountTable wordVersionWorld)
         "secret/foo"
       = (0, "", Some (NumError "Atoi" (option_of (Options m) "version") kind)).
Proof.
  apply (version_not_a_number (Store.mountTable wordVersionWorld) "secret/foo").
  - split.
    + eexists _, _. split; [apply list_elem_of_here | reflexivity].
    + intros k m Hin _. apply list_elem_of_singleton in Hin.
      now injection Hin as -> ->.
  - intros k m Hin _. apply list_elem_of_singleton in Hin.
    now injection Hin as -> ->.
Defined.

(** ** What a client built by [New] carries *)

Lemma KvOld_single (k : string) (m : MountOutput) (p : string) (v : Z) :
  HasPrefix p k = true ->
  KvOld.getVersionLoop [(k, m)] p = (v, None) ->
  MountType m = "kv"
  /\ Atoi (option_of (Options m) "version") = (v, None)
  /\ (v = 1 \/ v = 2).
Proof.
  intros Hp H. pose proof (KvOld_getVersion_success _ _ _ H) as Hv.
  simpl in H. rewrite Hp in H. simpl in H.
  destruct (String.eqb_spec (MountType m) "kv") as [Ht|_]; [|discriminate].
  simpl in H.
  destruct (Atoi (option_of (Options m) "version")) as [n [e|]];
    [discriminate|].
  destruct ((n =? 1) || (n =? 2)); [|discriminate].
  injection H as ->. auto.
Qed.

(** src/kv/kv.go: a client comes out of [New] only when the mount table
    was listed without error, the first entry the loop meets whose prefix
    matches the path is of type [kv], and its version option reads, by
    [strconv.Atoi], as the client's revision, which is 1 or 2. *)
Theorem KvOld_New_sound :
  forall (W : Type) (svc : Service W) (w : W) (p : string) (c : KvOld.Client),
    KvOld.New svc w p = (Some c, None) ->
    exists mounts k m,
      ListMounts svc w = (mounts, None)
      /\ firstMatch mounts p = Some (k, m)
      /\ HasPrefix p k = true
      /\ MountType m = "kv"
      /\ Atoi (option_of (Options m) "version") = (KvOld.Version c, None)
      /\ (KvOld.Version c = 1 \/ KvOld.Version c = 2).
Proof.
  intros W svc w p c. unfold KvOld.New, KvOld.getVersion.
  destruct (ListMounts svc w) as [mounts [e|]]; [discriminate|].
  rewrite KvOld_loop_firstMatch.
  destruct (firstMatch mounts p) as [[k m]|] eqn:E; [|discriminate].
  destruct (firstMatch_Some mounts p k m E) as [Hin Hp].
  destruct (KvOld.getVersionLoop [(k, m)] p) as [v [e|]] eqn:El;
    [discriminate|].
  intros H. injection H as <-.
  destruct (KvOld_single k m p v Hp El) as (Ht & Ha & Hv).
  exists mounts, k, m. auto 10.
Qed.

Lemma KvOld_New_sound_witness :
  exists mounts k m,
    ListMounts Store.service devWorld = (mounts, None)
    /\ firstMatch mounts "secret/" = Some (k, m)
    /\ HasPrefix "secret/" k = true
    /\ MountType m = "kv"
    /\ Atoi (option_of (Options m) "version") = (2, None)
    /\ (2 = 1 \/ 2 = 2).
Proof.
  exact (KvOld_New_sound Store.World Store.service devWorld "secret/"
           {| KvOld.Version := 2 |} eq_refl).
Defined.

Lemma KvMount_single (k : string) (m : MountOutput) (p : string) (v : Z)
      (mount : string) :
  HasPrefix p k = true ->
  KvMount.getVersionAndMountLoop [(k, m)] p = (v, mount, None) ->
  mount = k
  /\ ((MountType m = "kv"
       /\ Atoi (option_of (Options m) "version") = (v, None))
      \/ (MountType m = "generic" /\ v = 1)).
Proof.
  intros Hp H. simpl in H. rewrite Hp in H. simpl in H.
  destruct (String.eqb_spec (MountType m) "kv") as [Ht|_].
  - destruct (Atoi (option_of (Options m) "version")) as [n [e|]];
      [discriminate|].
    injection H as -> ->. auto.
  - destruct (String.eqb_spec (MountType m) "generic") as [Hg|_];
      [|discriminate].
    injection H as <- <-. auto.
Qed.

(** Second file of part_002: a client comes out of [New] only for a path
    that does not start with a slash and holds one, when the mount table
    was listed without error; its mount is the prefix of the first entry
    the loop meets that matches the path, so it is a prefix of the path;
    and its revision is what [strconv.Atoi] reads in the version option of
    a [kv] entry (any integer), or 1 for a [generic] entry. *)
Theorem KvMount_New_sound :
  forall (W : Type) (svc : Service W) (w : W) (p : string) (c : KvMount.Client),
    KvMount.New svc w p = (Some c, None) ->
    HasPrefix p "/" = false /\ ContainsRune p "/" = true
    /\ HasPrefix p (KvMount.Mount c) = true
    /\ exists mounts m,
         ListMounts svc w = (mounts, None)
         /\ firstMatch mounts p = Some (KvMount.Mount c, m)
         /\ ((MountType m = "kv"
              /\ Atoi (option_of (Options m) "version")
                 = (KvMount.Version c, None))
             \/ (MountType m = "generic" /\ KvMount.Version c = 1)).
Proof.
  intros W svc w p c. unfold KvMount.New, KvMount.getVersionAndMount.
  destruct (HasPrefix p "/"); [discriminate|].
  destruct (ContainsRune p "/"); [|discriminate]. simpl.
  destruct (ListMounts svc w) as [mounts [e|]]; [discriminate|].
  rewrite KvMount_loop_firstMatch.
  destruct (firstMatch mounts p) as [[k m]|] eqn:E; [|discriminate].
  destruct (firstMatch_Some mounts p k m E) as [Hin Hp].
  destruct (KvMount.getVersionAndMountLoop [(k, m)] p) as [[v mount] [e|]]
    eqn:El; [discriminate|].
  intros H. injection H as <-. cbn [KvMount.Mount KvMount.Version].
  destruct (KvMount_single k m p v mount Hp El) as (-> & Hcase).
  repeat split; try assumption.
  exists mounts, m. auto.
Qed.

Lemma KvMount_New_sound_witness :
  HasPrefix "secret/foo" "/" = false /\ ContainsRune "secret/foo" "/" = true
  /\ HasPrefix "secret/foo" "secret/" = true
  /\ exists mounts m,
       ListMounts Store.service devWorld = (mounts, None)
       /\ firstMatch mounts "secret/foo" = Some ("secret/", m)
       /\ ((MountType m = "kv"
            /\ Atoi (option_of (Options m) "version") = (2, None))
           \/ (MountType m = "generic" /\ 2 = 1)).
Proof.
  exact (KvMount_New_sound Store.World Store.service devWorld "secret/foo"
           {| KvMount.Version := 2; KvMount.Mount := "secret/" |} eq_refl).
Defined.

(** ** The order in which the mount table is visited *)

Lemma firstMatch_perm (l1 l2 : list (string * MountOutput)) (p : string) :
  l1 ≡ₚ l2 -> oneMatch l1 p -> firstMatch l1 p = firstMatch l2 p.
Proof.
  intros Hperm Hone.
  destruct (firstMatch l1 p) as [[k m]|] eqn:E1.
  - destruct (firstMatch_Some l1 p k m E1) as [Hin Hp].
    assert (Hin2 : (k, m) ∈ l2) by now rewrite <- Hperm.
    destruct (firstMatch_found l2 p k m Hin2 Hp) as (k' & m' & E2).
    destruct (firstMatch_Some l2 p k' m' E2) as [Hin' Hp'].
    rewrite <- Hperm in Hin'.
    now rewrite E2, (Hone k m k' m' Hin Hin' Hp Hp').
  - symmetry. apply firstMatch_None. apply firstMatch_None in E1.
    intros k m Hin. apply (E1 k m). now rewrite Hperm.
Qed.

(** Go visits the entries of the mount table in an unspecified order. When
    all the entries whose prefix matches the path are one and the same
    entry, version detection returns the same result for every order of
    the table, in all three files. *)
Theorem mount_order_irrelevant :
  forall (l1 l2 : list (string * MountOutput)) (p : string),
    l1 ≡ₚ l2 -> oneMatch l1 p ->
    KvOld.getVersionLoop l1 p = KvOld.getVersionLoop l2 p
    /\ KvFirst.getVersionLoop l1 p = KvFirst.getVersionLoop l2 p
    /\ KvMount.getVersionAndMountLoop l1 p
       = KvMount.getVersionAndMountLoop l2 p.
Proof.
  intros l1 l2 p Hperm Hone.
  pose proof (firstMatch_perm l1 l2 p Hperm Hone) as E.
  rewrite !KvOld_loop_firstMatch, !KvFirst_loop_firstMatch,
    !KvMount_loop_firstMatch, E.
  repeat split.
Qed.

Lemma devMounts_oneMatch : oneMatch devMounts "secret/foo".
Proof.
  intros k1 m1 k2 m2 H1 H2 P1 P2. unfold devMounts in H1, H2.
  repeat (apply elem_of_cons in H1 as [E1 | H1];
          [injection E1 as -> -> |]);
    try (now apply elem_of_nil in H1); try discriminate P1.
  repeat (apply elem_of_cons in H2 as [E2 | H2];
          [injection E2 as -> -> |]);
    try (now apply elem_of_nil in H2); try discriminate P2.
  reflexivity.
Qed.

Lemma mount_order_irrelevant_witness :
  KvOld.getVersionLoop devMounts "secret/foo"
  = KvOld.getVersionLoop (rev devMounts) "secret/foo"
  /\ KvFirst.getVersionLoop devMounts "secret/foo"
     = KvFirst.getVersionLoop (rev devMounts) "secret/foo"
  /\ KvMount.getVersionAndMountLoop devMounts "secret/foo"
     = KvMount.getVersionAndMountLoop (rev devMounts) "secret/foo".
Proof.
  apply (mount_order_irrelevant devMounts (rev devMounts) "secret/foo").
  - symmetry. apply Permutation_rev.
  - exact devMounts_oneMatch.
Defined.

(** ** The token file *)

Lemma length_zero_empty (s : string) :
  (String.length s =? 0)%nat = true <-> s = "".
Proof. destruct s; simpl; split; congruence. Qed.

(** [LoadToken] returns either a token that is not empty, the content of
    the token file, with a nil error, or the empty token with an error;
    the error for a file that is there and empty is "found empty token",
    the error for a file that cannot be read wraps the error of the read,
    and the two are never the same error. *)
Theorem LoadToken_token_or_error :
  forall (host : K8s.Host) (v : K8s.Vault) (tok : string),
    (K8s.LoadToken host v = (tok, None) ->
     tok <> "" /\ K8s.ReadFile host (K8s.TokenPath v) = (tok, None))
    /\ (forall e, K8s.LoadToken host v = (tok, Some e) ->
        tok = ""
        /\ ((K8s.ReadFile host (K8s.TokenPath v) = ("", None)
             /\ e = Errorf "found empty token" [])
            \/ (exists content cause,
                K8s.ReadFile host (K8s.TokenPath v) = (content, Some cause)
                /\ e = Wrapf cause "failed to load token" []
                /\ e <> Errorf "found empty token" []))).
Proof.
  intros host v tok. unfold K8s.LoadToken.
  destruct (K8s.ReadFile host (K8s.TokenPath v)) as [content [cause|]].
  - split; [discriminate|]. intros e H. injection H as <- <-.
    split; [reflexivity|]. right. exists content, cause.
    repeat split. discriminate.
  - destruct (String.length content =? 0)%nat eqn:E.
    + apply length_zero_empty in E. subst content.
      split; [discriminate|]. intros e H. injection H as <- <-. auto.
    + split; [|discriminate]. intros H. injection H as <-.
      split; [|reflexivity]. intros ->. discriminate.
Qed.

Lemma LoadToken_token_or_error_witness :
  ("fresh" <> "" /\ K8s.ReadFile hostFresh "/tmp/vault-token" = ("fresh", None))
  /\ "" = ""
     /\ ((K8s.ReadFile (hostWith {[ "/tmp/vault-token" := "" ]} (None, None) None)
            "/tmp/vault-token" = ("", None)
          /\ Errorf "found empty token" [] = Errorf "found empty token" [])
         \/ (exists content cause,
             K8s.ReadFile
               (hostWith {[ "/tmp/vault-token" := "" ]} (None, None) None)
               "/tmp/vault-token" = (content, Some cause)
             /\ Errorf "found empty token" []
                = Wrapf cause "failed to load token" []
             /\ Errorf "found empty token" [] <> Errorf "found empty token" [])).
Proof.
  split.
  - exact (proj1 (LoadToken_token_or_error hostFresh (testVault false) "fresh")
             eq_refl).
  - exact (proj2 (LoadToken_token_or_error
                    (hostWith {[ "/tmp/vault-token" := "" ]} (None, None) None)
                    (testVault false) "")
             (Errorf "found empty token" []) eq_refl).
Defined.

(** ** Authenticate and GetToken: tokens, errors and panics *)

Lemma Authenticate_error_no_token (host : K8s.Host) (v : K8s.Vault)
      (tok : string) (e : error) :
  K8s.Authenticate host v = Done (tok, Some e) -> tok = "".
Proof.
  unfold K8s.Authenticate.
  destruct (K8s.ReadFile host (K8s.ServiceAccountTokenPath v))
    as [content [cause|]]; [intros H; now injection H as <- <-|].
  destruct (FixAuthMountPath_total (K8s.AuthMountPath v)) as (mp & ->).
  cbn [bind].
  destruct (K8s.LoginWrite _ _ _ _) as [[s|] [cause|]];
    try (intros H; now injection H as <- <-); [|discriminate].
  destruct (0 <? length (Warnings s))%nat;
    [intros H; now injection H as <- <-|].
  destruct (Auth s); discriminate.
Qed.

Lemma Authenticate_panics_iff (host : K8s.Host) (v : K8s.Vault) :
  panics (K8s.Authenticate host v)
  <-> exists content mp,
        K8s.ReadFile host (K8s.ServiceAccountTokenPath v) = (content, None)
        /\ K8s.FixAuthMountPath (K8s.AuthMountPath v) = Done mp
        /\ (loginCall host v content mp = (None, None)
            \/ exists s, loginCall host v content mp = (Some s, None)
                         /\ Warnings s = [] /\ Auth s = None).
Proof.
  unfold K8s.Authenticate, loginCall.
  destruct (K8s.ReadFile host (K8s.ServiceAccountTokenPath v))
    as [content [cause|]].
  { split; [intros [] | intros (c & mp & H & _); discriminate]. }
  destruct (FixAuthMountPath_total (K8s.AuthMountPath v)) as (mp & Hmp).
  rewrite Hmp. cbn [bind].
  destruct (K8s.LoginWrite host (K8s.client v) (pathJoin [mp; "login"])
              (Some (K8s.loginData (K8s.Role v) (K8s.TrimSpace host content))))
    as [[s|] [cause|]] eqn:Hl.
  - split; [intros []|].
    intros (c & mp' & Hc & Hm & H). injection Hc as <-. injection Hm as <-.
    rewrite Hl in H. destruct H as [H | (s' & H & _)]; discriminate.
  - destruct (Warnings s) as [|x l] eqn:Hw; cbn [length Nat.ltb Nat.leb].
    + destruct (Auth s) as [a|] eqn:Ha.
      * split; [intros []|].
        intros (c & mp' & Hc & Hm & H). injection Hc as <-. injection Hm as <-.
        rewrite Hl in H. destruct H as [H | (s' & H & _ & Ha')];
          [discriminate|]. injection H as <-. congruence.
      * split; [|intros _; exact I]. intros _.
        exists content, mp. repeat split. right. exists s. auto.
    + split; [intros []|].
      intros (c & mp' & Hc & Hm & H). injection Hc as <-. injection Hm as <-.
      rewrite Hl in H. destruct H as [H | (s' & H & Hw' & _)];
        [discriminate|]. injection H as <-. congruence.
  - split; [intros []|].
    intros (c & mp' & Hc & Hm & H). injection Hc as <-. injection Hm as <-.
    rewrite Hl in H. destruct H as [H | (s' & H & _)]; discriminate.
  - split; [intros _|intros _; exact I].
    exists content, mp. repeat split. now left.
Qed.

(** [Authenticate] never returns a token together with an error. It
    panics in exactly two situations, both after the identity token was
    read and the login call returned a nil error: the call returned no
    secret, or it returned a secret without warnings whose [Auth] is nil. *)
Theorem Authenticate_token_error_panic :
  forall (host : K8s.Host) (v : K8s.Vault),
    (forall tok e, K8s.Authenticate host v = Done (tok, Some e) -> tok = "")
    /\ (panics (K8s.Authenticate host v)
        <-> exists content mp,
              K8s.ReadFile host (K8s.ServiceAccountTokenPath v)
              = (content, None)
              /\ K8s.FixAuthMountPath (K8s.AuthMountPath v) = Done mp
              /\ (loginCall host v content mp = (None, None)
                  \/ exists s, loginCall host v content mp = (Some s, None)
                               /\ Warnings s = [] /\ Auth s = None)).
Proof.
  intros host v. split.
  - apply Authenticate_error_no_token.
  - apply Authenticate_panics_iff.
Qed.

Lemma Authenticate_token_error_panic_witness :
  "" = ""
  /\ panics (K8s.Authenticate
               (hostWith {[ "/tmp/sa-token" := "jwt" ]} (None, None) None)
               (testVault false)).
Proof.
  split.
  - exact (proj1 (Authenticate_token_error_panic hostStale (testVault false))
             "" _ eq_refl).
  - apply (proj2 (Authenticate_token_error_panic
                    (hostWith {[ "/tmp/sa-token" := "jwt" ]} (None, None) None)
                    (testVault false))).
    exists "jwt", "auth/kubernetes". repeat split. now left.
Defined.

Lemma LoadToken_ok_nonempty (host : K8s.Host) (v : K8s.Vault) (tok : string) :
  K8s.LoadToken host v = (tok, None) -> tok <> "".
Proof.
  unfold K8s.LoadToken.
  destruct (K8s.ReadFile host (K8s.TokenPath v)) as [content [cause|]];
    [discriminate|].
  destruct (String.length content =? 0)%nat eqn:E; [discriminate|].
  intros H. injection H as <-. intros ->. discriminate.
Qed.

(** [GetToken] never returns a token together with an error. With the
    re-auth flag false it never panics, and the token it returns with a nil
    error is not empty and is the token set on the client. Whatever it
    returns, the receiver afterwards is the receiver before, with at most
    the client's token changed. *)
Theorem GetToken_invariants :
  forall (host : K8s.Host) (v : K8s.Vault),
    (forall v' tok e,
        K8s.GetToken host v = Done (v', (tok, Some e)) -> tok = "")
    /\ (K8s.ReAuth v = false ->
        ~ panics (K8s.GetToken host v)
        /\ forall v' tok,
             K8s.GetToken host v = Done (v', (tok, None)) ->
             tok <> "" /\ K8s.token (K8s.client v') = tok)
    /\ (forall v' r,
        K8s.GetToken host v = Done (v', r) ->
        v' = v \/ exists tok', v' = K8s.SetToken v tok').
Proof.
  intros host v. unfold K8s.GetToken.
  destruct (K8s.LoadToken host v) as [tok0 [e0|]] eqn:El.
  - destruct (K8s.ReAuth v) eqn:Hr.
    + destruct (K8s.Authenticate host v) as [[t [e|]]|] eqn:Ea; cbn [bind].
      * apply Authenticate_error_no_token in Ea. subst t.
        split; [intros v' tok e' H; now injection H as <- <- <-|].
        split; [discriminate|]. intros v' r H. injection H as <- <-. auto.
      * split; [discriminate|]. split; [discriminate|].
        intros v' r H. injection H as <- <-. auto.
      * split; [discriminate|]. split; discriminate.
    + split; [intros v' tok e' H; now injection H as <- <- <-|].
      split; [|intros v' r H; injection H as <- <-; auto].
      intros _. split; [intros []|]. discriminate.
  - change (K8s.TTL (K8s.SetToken v tok0)) with (K8s.TTL v).
    change (K8s.ReAuth (K8s.SetToken v tok0)) with (K8s.ReAuth v).
    destruct (K8s.RenewSelf host (K8s.client (K8s.SetToken v tok0)) (K8s.TTL v))
      as [s [e1|]].
    + destruct (K8s.ReAuth v) eqn:Hr.
      * destruct (K8s.Authenticate host (K8s.SetToken v tok0))
          as [[t [e|]]|] eqn:Ea; cbn [bind].
        -- apply Authenticate_error_no_token in Ea. subst t.
           split; [intros v' tok e' H; now injection H as <- <- <-|].
           split; [discriminate|]. intros v' r H. injection H as <- <-. eauto.
        -- split; [discriminate|]. split; [discriminate|].
           intros v' r H. injection H as <- <-. eauto.
        -- split; [discriminate|]. split; discriminate.
      * split; [intros v' tok e' H; now injection H as <- <- <-|].
        split; [|intros v' r H; injection H as <- <-; eauto].
        intros _. split; [intros []|]. discriminate.
    + split; [discriminate|].
      split; [|intros v' r H; injection H as <- <-; eauto].
      intros _. split; [intros []|].
      intros v' tok H. injection H as <- <-.
      split; [exact (LoadToken_ok_nonempty host v tok0 El) | reflexivity].
Qed.

Lemma GetToken_invariants_witness :
  "" = ""
  /\ ~ panics (K8s.GetToken hostFresh (testVault false))
  /\ ("fresh" <> ""
      /\ K8s.token (K8s.client (K8s.SetToken (testVault false) "fresh"))
         = "fresh")
  /\ (K8s.SetToken (testVault false) "stale" = testVault false
      \/ exists tok', K8s.SetToken (testVault false) "stale"
                      = K8s.SetToken (testVault false) tok').
Proof.
  pose proof (GetToken_invariants hostFresh (testVault false)) as (_ & H2 & _).
  pose proof (GetToken_invariants hostStale (testVault false)) as (H1 & _ & H3).
  destruct (H2 eq_refl) as [Hn Ht].
  refine (conj (H1 _ "" _ eq_refl) (conj Hn (conj (Ht _ "fresh" eq_refl) _))).
  exact (H3 _ _ eq_refl).
Defined.

(** ** The auth mount path, once more *)

Lemma nonEmpty_plainSeg (l : list string) :
  Forall okElem l -> Forall plainSeg (nonEmpty l).
Proof.
  induction 1 as [|e l He _ IH]; [constructor|].
  unfold nonEmpty in *. simpl.
  destruct (String.eqb_spec e ""); simpl; [exact IH|].
  constructor; [split; assumption | exact IH].
Qed.

Lemma nonEmpty_cons_plain (e0 : string) (rest : list string) :
  plainSeg e0 -> nonEmpty (e0 :: rest) = e0 :: nonEmpty rest.
Proof.
  intros He0. unfold nonEmpty. simpl.
  destruct (String.eqb_spec e0 ""); [now destruct He0 | reflexivity].
Qed.

Lemma FixAuthMountPath_auth_first (segs : list string) :
  Forall plainSeg segs ->
  K8s.FixAuthMountPath (Join ("auth" :: segs) "/")
  = Done (Join ("auth" :: segs) "/").
Proof.
  intros Hs.
  pose proof (FixAuthMountPath_plain 0 "auth" segs plainSeg_auth
                (plainSeg_okElem_all _ Hs)) as H.
  change (slashes 0 +:+ Join ("auth" :: segs) "/")
    with (Join ("auth" :: segs) "/") in H.
  rewrite H. change (String.eqb "auth" "auth") with true. cbv iota.
  now rewrite (nonEmpty_plain ("auth" :: segs))
    by (constructor; [exact plainSeg_auth | exact Hs]).
Qed.

(** [FixAuthMountPath] applied to its own result changes nothing, for a
    path of leading slashes and plain or empty elements, and the first
    segment of the result is [auth]: the mount path that
    [NewFromEnvironment] stores normalised is the one [Authenticate]
    normalises again before the login. *)
Theorem FixAuthMountPath_idempotent :
  forall (n : nat) (e0 : string) (rest : list string) (out : string),
    plainSeg e0 -> Forall okElem rest ->
    K8s.FixAuthMountPath (slashes n +:+ Join (e0 :: rest) "/") = Done out ->
    K8s.FixAuthMountPath out = Done out
    /\ head (Split out "/") = Some "auth".
Proof.
  intros n e0 rest out He0 Hrest.
  rewrite (FixAuthMountPath_plain n e0 rest He0 Hrest).
  rewrite (nonEmpty_cons_plain e0 rest He0).
  pose proof (nonEmpty_plainSeg rest Hrest) as Hs.
  assert (Hsplit : forall segs, Forall plainSeg segs ->
            head (Split (Join ("auth" :: segs) "/") "/") = Some "auth").
  { intros segs Hsegs. rewrite Split_Join; [reflexivity | congruence |].
    apply noSlash_elems; [exact plainSeg_auth | now apply plainSeg_okElem_all]. }
  assert (Hdone : forall a b : string, Done a = Done b -> b = a)
    by (intros a b H; now injection H).
  destruct (String.eqb_spec e0 "auth") as [->|Hne]; intros H;
    apply Hdone in H; rewrite H.
  - split; [now apply FixAuthMountPath_auth_first | now apply Hsplit].
  - change ("auth/" +:+ Join (e0 :: nonEmpty rest) "/")
      with (Join ("auth" :: e0 :: nonEmpty rest) "/").
    assert (Hall : Forall plainSeg (e0 :: nonEmpty rest)) by now constructor.
    split; [now apply FixAuthMountPath_auth_first | now apply Hsplit].
Qed.

Lemma FixAuthMountPath_idempotent_witness :
  K8s.FixAuthMountPath "auth/kubernetes/prod" = Done "auth/kubernetes/prod"
  /\ head (Split "auth/kubernetes/prod" "/") = Some "auth".
Proof.
  apply (FixAuthMountPath_idempotent 2 "kubernetes" [""; "prod"; ""]).
  - repeat split; discriminate.
  - repeat constructor; discriminate.
  - reflexivity.
Defined.

(** ** Storing the token, then loading it *)

(** On a file system that gives back what was written: after [StoreToken]
    returned a nil error, [LoadToken] returns the token stored and a nil
    error, except for the empty token, which it refuses with
    "found empty token". The error [StoreToken] returns is always the
    error of the write, wrapped under "failed to store token". *)
Theorem StoreToken_then_LoadToken :
  forall (F : Type) (files : K8sSetup.Files F) (base : K8s.Host)
         (v : K8s.Vault) (fs fs' : F) (tok : string),
    (readsBack files ->
     K8sSetup.StoreToken files v fs tok = (fs', None) ->
     K8s.LoadToken (K8sSetup.hostOn files fs' base) v
     = if String.eqb tok "" then ("", Some (Errorf "found empty token" []))
       else (tok, None))
    /\ (forall e,
        K8sSetup.StoreToken files v fs tok = (fs', Some e) ->
        exists cause,
          K8sSetup.fileWrite files fs (K8s.TokenPath v) tok 420
          = (fs', Some cause)
          /\ e = Wrapf cause "failed to store token" []).
Proof.
  intros F files base v fs fs' tok. unfold K8sSetup.StoreToken.
  destruct (K8sSetup.fileWrite files fs (K8s.TokenPath v) tok 420)
    as [fs1 [cause|]] eqn:Ew.
  - split; [discriminate|]. intros e H. injection H as <- <-. eauto.
  - split; [|discriminate]. intros Hlaw H. injection H as <-.
    unfold K8s.LoadToken. cbn [K8s.ReadFile K8sSetup.hostOn].
    rewrite (Hlaw _ _ _ _ _ Ew).
    destruct tok; reflexivity.
Qed.

Lemma memFiles_readsBack : readsBack memFiles.
Proof.
  intros fs name content perm fs' H. injection H as <-.
  cbn [K8sSetup.fileRead memFiles]. now rewrite lookup_insert_eq.
Qed.

Lemma StoreToken_then_LoadToken_witness :
  K8s.LoadToken
    (K8sSetup.hostOn memFiles (<[ "/tmp/vault-token" := rootToken ]> ∅)
                     hostNoToken)
    (testVault false)
  = (rootToken, None)
  /\ K8s.LoadToken
       (K8sSetup.hostOn memFiles (<[ "/tmp/vault-token" := "" ]> ∅) hostNoToken)
       (testVault false)
     = ("", Some (Errorf "found empty token" []))
  /\ exists cause,
       K8sSetup.fileWrite readOnlyFiles tt "/tmp/vault-token" rootToken 420
       = (tt, Some cause)
       /\ Wrapf (External "read-only file system") "failed to store token" []
          = Wrapf cause "failed to store token" [].
Proof.
  refine (conj _ (conj _ _)).
  - exact (proj1 (StoreToken_then_LoadToken _ memFiles hostNoToken
                    (testVault false) ∅ _ rootToken)
             memFiles_readsBack eq_refl).
  - exact (proj1 (StoreToken_then_LoadToken _ memFiles hostNoToken
                    (testVault false) ∅ _ "")
             memFiles_readsBack eq_refl).
  - exact (proj2 (StoreToken_then_LoadToken _ readOnlyFiles hostNoToken
                    (testVault false) tt tt rootToken)
             _ eq_refl).
Defined.

(** ** The construction from the environment *)

Lemma FixAuthMountPath_default :
  K8s.FixAuthMountPath K8sSetup.AuthMountPath = Done "auth/kubernetes".
Proof. reflexivity. Qed.

(** [NewFromEnvironment] never panics and returns exactly one of a
    [Vault] and an error. It returns the error "missing VAULT_TOKEN_PATH"
    whenever that variable is empty or unset, whatever the others hold.
    The [Vault] it returns has the role and the token path of the
    environment, the token path not empty; a mount path that is the result
    of [FixAuthMountPath] on VAULT_AUTH_MOUNT_PATH, or on "auth/kubernetes"
    when that variable is empty; an identity-token path that is never
    empty; flags that are false when their variable is empty and otherwise
    what [strconv.ParseBool] reads in it; a TTL of 0 when VAULT_TTL is
    empty; and the client the client library built without error. *)
Theorem NewFromEnvironment_result :
  forall ps : K8sSetup.Process,
    ((exists v, K8sSetup.NewFromEnvironment ps = Done (Some v, None))
     \/ (exists e, K8sSetup.NewFromEnvironment ps = Done (None, Some e)))
    /\ (K8sSetup.Getenv ps "VAULT_TOKEN_PATH" = "" ->
        K8sSetup.NewFromEnvironment ps
        = Done (None, Some (Errorf "missing VAULT_TOKEN_PATH" [])))
    /\ (forall v,
        K8sSetup.NewFromEnvironment ps = Done (Some v, None) ->
        K8s.Role v = K8sSetup.Getenv ps "VAULT_ROLE"
        /\ K8s.TokenPath v = K8sSetup.Getenv ps "VAULT_TOKEN_PATH"
        /\ K8s.TokenPath v <> ""
        /\ K8s.FixAuthMountPath
             (if String.eqb (K8sSetup.Getenv ps "VAULT_AUTH_MOUNT_PATH") ""
              then "auth/kubernetes"
              else K8sSetup.Getenv ps "VAULT_AUTH_MOUNT_PATH")
           = Done (K8s.AuthMountPath v)
        /\ K8s.ServiceAccountTokenPath v
           = (if String.eqb (K8sSetup.Getenv ps "SERVICE_ACCOUNT_TOKEN_PATH") ""
              then K8sSetup.ServiceAccountTokenPath
              else K8sSetup.Getenv ps "SERVICE_ACCOUNT_TOKEN_PATH")
        /\ K8s.ServiceAccountTokenPath v <> ""
        /\ (if String.eqb (K8sSetup.Getenv ps "VAULT_REAUTH") ""
            then K8s.ReAuth v = false
            else K8sSetup.ParseBool (K8sSetup.Getenv ps "VAULT_REAUTH")
                 = (K8s.ReAuth v, None))
        /\ (if String.eqb (K8sSetup.Getenv ps "ALLOW_FAIL") ""
            then K8s.AllowFail v = false
            else K8sSetup.ParseBool (K8sSetup.Getenv ps "ALLOW_FAIL")
                 = (K8s.AllowFail v, None))
        /\ (K8sSetup.Getenv ps "VAULT_TTL" = "" -> K8s.TTL v = 0)
        /\ K8sSetup.ReadEnvironment ps = None
        /\ K8sSetup.NewClient ps = (K8s.client v, None)).
Proof.
  intros ps. unfold K8sSetup.NewFromEnvironment.
  rewrite FixAuthMountPath_default. cbn [bind].
  destruct (String.eqb_spec (K8sSetup.Getenv ps "VAULT_TOKEN_PATH") "")
    as [Etp|Etp].
  { split; [right; eauto|]. split; [reflexivity | discriminate]. }
  set (reauth := if negb (String.eqb (K8sSetup.Getenv ps "VAULT_REAUTH") "")
                 then K8sSetup.ParseBool (K8sSetup.Getenv ps "VAULT_REAUTH")
                 else (false, None)).
  assert (Hre : forall b, reauth = (b, None) ->
            if String.eqb (K8sSetup.Getenv ps "VAULT_REAUTH") ""
            then b = false
            else K8sSetup.ParseBool (K8sSetup.Getenv ps "VAULT_REAUTH")
                 = (b, None)).
  { subst reauth. intros b.
    destruct (String.eqb (K8sSetup.Getenv ps "VAULT_REAUTH") ""); simpl;
      [congruence | auto]. }
  destruct reauth as [reAuth [e|]];
    [split; [right; eauto | split; [congruence | discriminate]]|].
  specialize (Hre reAuth eq_refl).
  set (ttl := if negb (String.eqb (K8sSetup.Getenv ps "VAULT_TTL") "")
              then let '(d, err) :=
                     K8sSetup.ParseDuration ps (K8sSetup.Getenv ps "VAULT_TTL")
                   in (Some d, err)
              else (None, None)).
  assert (Httl : forall d, ttl = (d, None) ->
            K8sSetup.Getenv ps "VAULT_TTL" = "" -> d = None).
  { subst ttl. intros d H E. rewrite E in H. simpl in H. congruence. }
  destruct ttl as [d [e|]];
    [split; [right; eauto | split; [congruence | discriminate]]|].
  specialize (Httl d eq_refl).
  set (mountArg := K8sSetup.Getenv ps "VAULT_AUTH_MOUNT_PATH") in *.
  assert (Hmp : exists mp,
            (if negb (String.eqb mountArg "")
             then K8s.FixAuthMountPath mountArg else Done "auth/kubernetes")
            = Done mp
            /\ K8s.FixAuthMountPath
                 (if String.eqb mountArg "" then "auth/kubernetes" else mountArg)
               = Done mp).
  { destruct (String.eqb mountArg ""); simpl.
    - exists "auth/kubernetes". split; reflexivity.
    - destruct (FixAuthMountPath_total mountArg) as (mp & E). eauto. }
  destruct Hmp as (mp & -> & Hmp). cbn [bind].
  set (allow := if negb (String.eqb (K8sSetup.Getenv ps "ALLOW_FAIL") "")
                then K8sSetup.ParseBool (K8sSetup.Getenv ps "ALLOW_FAIL")
                else (false, None)).
  assert (Hal : forall b, allow = (b, None) ->
            if String.eqb (K8sSetup.Getenv ps "ALLOW_FAIL") ""
            then b = false
            else K8sSetup.ParseBool (K8sSetup.Getenv ps "ALLOW_FAIL")
                 = (b, None)).
  { subst allow. intros b.
    destruct (String.eqb (K8sSetup.Getenv ps "ALLOW_FAIL") ""); simpl;
      [congruence | auto]. }
  destruct allow as [allowFail [e|]];
    [split; [right; eauto | split; [congruence | discriminate]]|].
  specialize (Hal allowFail eq_refl).
  destruct (K8sSetup.ReadEnvironment ps) as [e|];
    [split; [right; eauto | split; [congruence | discriminate]]|].
  destruct (K8sSetup.NewClient ps) as [c [e|]];
    [split; [right; eauto | split; [congruence | discriminate]]|].
  split; [left; eauto|]. split; [congruence|].
  intros v H. injection H as <-.
  cbn [K8s.Role K8s.TokenPath K8s.AuthMountPath K8s.ServiceAccountTokenPath
       K8s.ReAuth K8s.AllowFail K8s.TTL K8s.client].
  repeat split; try assumption; try reflexivity.
  - destruct (String.eqb_spec (K8sSetup.Getenv ps "SERVICE_ACCOUNT_TOKEN_PATH") "");
      [discriminate | assumption].
  - intros E. now rewrite (Httl E).
Qed.

Lemma NewFromEnvironment_result_witness :
  K8sSetup.NewFromEnvironment (processWith {[ "VAULT_ROLE" := "demo" ]})
  = Done (None, Some (Errorf "missing VAULT_TOKEN_PATH" []))
  /\ K8sSetup.NewFromEnvironment (processWith fullEnv)
     = Done (Some fullEnvVault, None)
  /\ K8s.FixAuthMountPath "/kubernetes/" = Done "auth/kubernetes"
  /\ K8sSetup.ParseBool "true" = (true, None)
  /\ K8sSetup.ParseBool "F" = (false, None).
Proof.
  pose proof (NewFromEnvironment_result (processWith {[ "VAULT_ROLE" := "demo" ]}))
    as (_ & Hmissing & _).
  pose proof (NewFromEnvironment_result (processWith fullEnv)) as (_ & _ & Hok).
  assert (Hrun : K8sSetup.NewFromEnvironment (processWith fullEnv)
                 = Done (Some fullEnvVault, None)) by (vm_compute; reflexivity).
  destruct (Hok fullEnvVault Hrun)
    as (_ & _ & _ & Hmp & _ & _ & Hre & Hal & _).
  exact (conj (Hmissing eq_refl) (conj Hrun (conj Hmp (conj Hre Hal)))).
Defined.

(** ** Revisions other than 2 *)

(** The three operations test the revision against 2 and nothing else: a
    client of any other revision (the part_002 files build one for any
    integer in the version option) sends the path as it is and the map
    unwrapped, exactly as a client of revision 1 does, in all three
    files. *)
Theorem other_revisions_as_revision_1 :
  forall (W : Type) (svc : Service W) (w : W) (p mount : string)
         (data : fields) (v : Z),
    v <> 2 ->
    (KvOld.Read svc {| KvOld.Version := v |} w p
     = KvOld.Read svc {| KvOld.Version := 1 |} w p
     /\ KvOld.Write svc {| KvOld.Version := v |} w p data
        = KvOld.Write svc {| KvOld.Version := 1 |} w p data
     /\ KvOld.List svc {| KvOld.Version := v |} w p
        = KvOld.List svc {| KvOld.Version := 1 |} w p)
    /\ (KvFirst.Read svc {| KvFirst.Version := v |} w p
        = KvFirst.Read svc {| KvFirst.Version := 1 |} w p
        /\ KvFirst.Write svc {| KvFirst.Version := v |} w p data
           = KvFirst.Write svc {| KvFirst.Version := 1 |} w p data
        /\ KvFirst.List svc {| KvFirst.Version := v |} w p
           = KvFirst.List svc {| KvFirst.Version := 1 |} w p)
    /\ (KvMount.Read svc {| KvMount.Version := v; KvMount.Mount := mount |} w p
        = KvMount.Read svc {| KvMount.Version := 1; KvMount.Mount := mount |} w p
        /\ KvMount.Write svc {| KvMount.Version := v; KvMount.Mount := mount |}
             w p data
           = KvMount.Write svc {| KvMount.Version := 1; KvMount.Mount := mount |}
               w p data
        /\ KvMount.List svc {| KvMount.Version := v; KvMount.Mount := mount |} w p
           = KvMount.List svc {| KvMount.Version := 1; KvMount.Mount := mount |}
               w p).
Proof.
  intros W svc w p mount data v Hv. apply Z.eqb_neq in Hv.
  unfold KvOld.Read, KvOld.Write, KvOld.List,
    KvFirst.Read, KvFirst.Write, KvFirst.List,
    KvMount.Read, KvMount.Write, KvMount.List.
  cbn [KvOld.Version KvFirst.Version KvMount.Version KvMount.Mount].
  rewrite Hv. change (1 =? 2) with false.
  repeat split.
Qed.

Lemma other_revisions_as_revision_1_witness :
  KvFirst.Write Store.service {| KvFirst.Version := 3 |} version3World
    "secret/foo" penguin
  = KvFirst.Write Store.service {| KvFirst.Version := 1 |} version3World
      "secret/foo" penguin
  /\ KvMount.Read Store.service
       {| KvMount.Version := 3; KvMount.Mount := "secret/" |} version3World
       "secret/foo"
     = KvMount.Read Store.service
         {| KvMount.Version := 1; KvMount.Mount := "secret/" |} version3World
         "secret/foo".
Proof.
  pose proof (other_revisions_as_revision_1 _ Store.service version3World
                "secret/foo" "secret/" penguin 3) as (_ & H2 & H3);
    [discriminate|].
  exact (conj (proj1 (proj2 H2)) (proj1 H3)).
Defined.
